(** * Bank-Account-Simulator: the account core of [src/bank_account.py]

    A shallow embedding of the class [BankAccount] (the stateful account) and
    of the module-level functions [deposit], [withdraw] and [get_balance]
    (the stateless operations), with the properties of the specification
    proved about them.

    Modelling choices.
    - Amounts and balances are Python numbers.  They are taken as exact
      integers ([Z], Python's [int], which is what the test-suite passes),
      and the properties are stated with the comparisons and the
      operations the code itself makes.  What [nan], [inf] and binary
      rounding change is shown on a second embedding of the account, over
      binary64 (module [Binary64]).
    - The transaction log is a Python [list] of [dict] objects.  Both are
      mutable and can be shared, so they live in an explicit heap
      ([gmap loc object]); a list holds references to its elements.
    - [datetime.now()] reads a clock of the environment: the world carries
      the sequence of its future readings and the number of readings made.
    - [raise ValueError(msg)] is the result [Raise (ValueError msg)]; a
      method is a function from the state to a result and the state at which
      it returned or raised.

    The command-line shell of [src/app.py], the caller of both, is embedded
    after them: its handlers and its loop, over standard input and output. *)

From Stdlib Require PrimFloat.
From stdpp Require Import base gmap list strings numbers pretty.

Local Open Scope Z_scope.

(** ** Python values, objects and the heap *)

Definition loc := positive.
Definition datetime := Z.

Inductive value :=
| Num (z : Z)
| Str (s : string)
| Datetime (t : datetime).

Inductive object :=
| PyList (items : list loc)
| PyDict (d : gmap string value).

Record World := mkWorld {
  heap : gmap loc object;
  clock : nat → datetime;
  ticks : nat
}.

Inductive exn := ValueError (msg : string).

Inductive result (A : Type) :=
| Return (a : A)
| Raise (e : exn).
Arguments Return {A} a.
Arguments Raise {A} e.

(** [x = <object>]: a new object at an address not in use. *)
Definition alloc (o : object) (w : World) : loc * World :=
  let l := fresh (dom (heap w)) in
  (l, mkWorld (<[l := o]> (heap w)) (clock w) (ticks w)).

(** [datetime.now()] *)
Definition now (w : World) : datetime * World :=
  (clock w (ticks w), mkWorld (heap w) (clock w) (S (ticks w))).

(** The items of the list object at [l] (none when [l] is not a list
    object), and the dict object at [l]. *)
Definition list_items (h : gmap loc object) (l : loc) : list loc :=
  match h !! l with
  | Some (PyList items) => items
  | _ => []
  end.

Definition dict_at (h : gmap loc object) (l : loc) : option (gmap string value) :=
  match h !! l with
  | Some (PyDict d) => Some d
  | _ => None
  end.

(** The value of a list of dicts as [==] compares it: the dicts in order. *)
Definition list_value (h : gmap loc object) (l : loc) : list (gmap string value) :=
  omap (dict_at h) (list_items h l).

(** ** The class [BankAccount] *)

Module BankAccount.

Record t := mk {
  _balance : Z;
  _transaction_history : loc;
  _overdraft_limit : Z
}.

Record State := mkState {
  self : t;
  world : World
}.

Definition M (A : Type) : Type := State → result A * State.

#[export] Instance M_ret : MRet M := λ A a s, (Return a, s).

#[export] Instance M_bind : MBind M := λ A B f m s,
  match m s with
  | (Return a, s') => f a s'
  | (Raise e, s') => (Raise e, s')
  end.

Definition raise {A} (e : exn) : M A := λ s, (Raise e, s).

(** [self.<attribute>] *)
Definition attr {A} (f : t → A) : M A := λ s, (Return (f (self s)), s).

(** [self._balance = v] *)
Definition set_balance (v : Z) : M unit := λ s,
  (Return (),
   mkState (mk v (_transaction_history (self s)) (_overdraft_limit (self s)))
           (world s)).

Definition in_world {A} (f : World → A * World) : M A := λ s,
  let '(a, w) := f (world s) in (Return a, mkState (self s) w).

(** [lst.append(x)], for [lst] a list object; the attribute it is used on
    always refers to one, and on anything else the model changes nothing. *)
Definition list_append (lst x : loc) : M unit :=
  in_world (λ w,
    match heap w !! lst with
    | Some (PyList items) =>
        ((), mkWorld (<[lst := PyList (items ++ [x])]> (heap w)) (clock w) (ticks w))
    | _ => ((), w)
    end).

(** [lst.copy()] *)
Definition list_copy (lst : loc) : M loc :=
  in_world (λ w, alloc (PyList (list_items (heap w) lst)) w).

(** [len(lst)] *)
Definition len (lst : loc) : M nat :=
  in_world (λ w, (length (list_items (heap w) lst), w)).

(** [_record_transaction(self, transaction_type, amount)]: the dict is
    built first, its values in the order written (the clock is read before
    the balance), then appended. *)
Definition _record_transaction (transaction_type : string) (amount : Z) : M unit :=
  timestamp ← in_world now;
  resulting_balance ← attr _balance;
  transaction ← in_world (alloc (PyDict
    {[ "type" := Str transaction_type;
       "amount" := Num amount;
       "timestamp" := Datetime timestamp;
       "resulting_balance" := Num resulting_balance ]}));
  history ← attr _transaction_history;
  list_append history transaction.

(** [BankAccount(initial_balance, overdraft_limit)]: the new instance and
    the world after [__init__], or the exception [__init__] raised.  Both
    arguments default to 0 in the source. *)
Definition __init__ (initial_balance overdraft_limit : Z) (w : World) : result State :=
  if initial_balance <? 0 then
    Raise (ValueError "Initial balance cannot be negative")
  else
    let '(history, w) := alloc (PyList []) w in
    let s := mkState (mk initial_balance history (Z.max 0 overdraft_limit)) w in
    if initial_balance >? 0 then
      Return (_record_transaction "initial deposit" initial_balance s).2
    else Return s.

(** [deposit(self, amount)] *)
Definition deposit (amount : Z) : M Z :=
  if amount <=? 0 then
    raise (ValueError "Deposit amount must be positive")
  else
    balance ← attr _balance;
    set_balance (balance + amount);;
    _record_transaction "deposit" amount;;
    attr _balance.

(** [withdraw(self, amount)] *)
Definition withdraw (amount : Z) : M Z :=
  if amount <=? 0 then
    raise (ValueError "Withdrawal amount must be positive")
  else
    balance ← attr _balance;
    overdraft_limit ← attr _overdraft_limit;
    if balance - amount <? - overdraft_limit then
      raise (ValueError
        ("Withdrawal would exceed overdraft limit of " +:+ pretty overdraft_limit))
    else
      set_balance (balance - amount);;
      _record_transaction "withdrawal" amount;;
      attr _balance.

(** [get_balance(self)], [get_transaction_history(self)],
    [transaction_count(self)] *)
Definition get_balance : M Z := attr _balance.

Definition get_transaction_history : M loc :=
  history ← attr _transaction_history;
  list_copy history.

Definition transaction_count : M nat :=
  history ← attr _transaction_history;
  len history.

End BankAccount.

(** ** The stateless operations

    The functions [deposit], [withdraw] and [get_balance] of the module;
    [overdraft_limit] defaults to 0 in the source. *)

Definition deposit (balance amount : Z) : result Z :=
  if amount <=? 0 then
    Raise (ValueError "Deposit amount must be positive")
  else Return (balance + amount).

Definition withdraw (balance amount overdraft_limit : Z) : result Z :=
  if amount <=? 0 then
    Raise (ValueError "Withdrawal amount must be positive")
  else
    let new_balance := balance - amount in
    if new_balance <? - overdraft_limit then
      Raise (ValueError
        ("Withdrawal would exceed overdraft limit of " +:+ pretty overdraft_limit))
    else Return new_balance.

Definition get_balance (balance : Z) : Z := balance.

(** ** Observations of an account, and the vocabulary of the specification *)

Abbreviation State := BankAccount.State.
Abbreviation heap_of s := (heap (BankAccount.world s)).
Abbreviation own_list s := (BankAccount._transaction_history (BankAccount.self s)).

Definition balance (s : State) : Z := BankAccount._balance (BankAccount.self s).

Definition overdraft_limit (s : State) : Z := BankAccount._overdraft_limit (BankAccount.self s).

(** The transaction history as the account holds it: the records of the
    list [self._transaction_history], in order. *)
Definition history (s : State) : list (gmap string value) :=
  list_value (heap_of s) (own_list s).

(** The history attribute refers to a list object, and each of its items to
    a dict object. *)
Definition well_formed (s : State) : Prop :=
  ∃ items, heap_of s !! own_list s = Some (PyList items)
           ∧ Forall (λ l, is_Some (dict_at (heap_of s) l)) items.

(** The two kinds of failure of the specification; the code raises
    [ValueError] for both and tells them apart by the message. *)
Inductive ErrorKind := InvalidArgument | OverdraftExceeded.

Definition error_kind (e : exn) : option ErrorKind :=
  let 'ValueError msg := e in
  if bool_decide (msg ∈ ["Initial balance cannot be negative";
                         "Deposit amount must be positive";
                         "Withdrawal amount must be positive"])
  then Some InvalidArgument
  else if String.prefix "Withdrawal would exceed overdraft limit of " msg
  then Some OverdraftExceeded
  else None.

Definition fails_with {A} (k : ErrorKind) (r : result A) : Prop :=
  match r with
  | Raise e => error_kind e = Some k
  | Return _ => False
  end.

(** *** Sequences of calls *)

Inductive Call :=
| Deposit (amount : Z)
| Withdraw (amount : Z).

Definition call (c : Call) : BankAccount.M Z :=
  match c with
  | Deposit amount => BankAccount.deposit amount
  | Withdraw amount => BankAccount.withdraw amount
  end.

(** A caller that makes the calls one after the other on the same account,
    catching the exception of a failed call and going on. *)
Fixpoint run (cs : list Call) (s : State) : list (result Z) * State :=
  match cs with
  | [] => ([], s)
  | c :: cs =>
      let '(r, s) := call c s in
      let '(rs, s) := run cs s in
      (r :: rs, s)
  end.

Definition call_stateless (limit : Z) (c : Call) (b : Z) : result Z :=
  match c with
  | Deposit amount => deposit b amount
  | Withdraw amount => withdraw b amount limit
  end.

(** The stateless caller carries the balance and the limit itself, as
    [balance = deposit(balance, amount)] inside [try]: a failed call leaves
    its variable as it was. *)
Fixpoint run_stateless (limit : Z) (cs : list Call) (b : Z) : list (result Z) * Z :=
  match cs with
  | [] => ([], b)
  | c :: cs =>
      let r := call_stateless limit c b in
      let b := match r with Return b' => b' | Raise _ => b end in
      let '(rs, b) := run_stateless limit cs b in
      (r :: rs, b)
  end.

Definition succeeded {A} (r : result A) : bool :=
  match r with Return _ => true | Raise _ => false end.

(** The balance of the account right after each successful call of a run. *)
Fixpoint balances_after (cs : list Call) (s : State) : list Z :=
  match cs with
  | [] => []
  | c :: cs =>
      let '(r, s) := call c s in
      if succeeded r then balance s :: balances_after cs s
      else balances_after cs s
  end.

(** The number of successful calls among the results of a run. *)
Definition successes (rs : list (result Z)) : nat :=
  length (List.filter succeeded rs).

(** *** What a caller can do with a list it was handed *)

(** The object at [l] changed in place to [o]. *)
Definition store (l : loc) (o : object) (s : State) : State :=
  BankAccount.mkState (BankAccount.self s)
    (mkWorld (<[l := o]> (heap_of s)) (clock (BankAccount.world s)) (ticks (BankAccount.world s))).

(** A mutation through the list [r]: of the list itself (append, pop,
    sort, item or slice assignment, ...: its items become any [items]), or
    of one of the records it refers to ([r[i][key] = v], [del r[i][key]],
    ...: its fields become any [fields]). *)
Inductive caller_mutation (r : loc) (s : State) : State → Prop :=
| mutate_list items :
    caller_mutation r s (store r (PyList items) s)
| mutate_record d fields :
    d ∈ list_items (heap_of s) r →
    caller_mutation r s (store d (PyDict fields) s).

Inductive list_mutation (r : loc) (s : State) : State → Prop :=
| list_mutate items : list_mutation r s (store r (PyList items) s).

(** [r] is a list object other than the account's own list. *)
Definition foreign_list (r : loc) (s : State) : Prop :=
  r ≠ own_list s
  ∧ ∃ items, heap_of s !! r = Some (PyList items).

(** A transaction record, and the reading [datetime.now()] gives next. *)
Definition transaction (ty : string) (amount : Z) (timestamp : datetime)
    (resulting_balance : Z) : gmap string value :=
  {[ "type" := Str ty;
     "amount" := Num amount;
     "timestamp" := Datetime timestamp;
     "resulting_balance" := Num resulting_balance ]}.

Definition reading (s : State) : datetime :=
  clock (BankAccount.world s) (ticks (BankAccount.world s)).

(** The record [_record_transaction] builds in state [s], and the state it
    leaves when the history attribute refers to the list [items]. *)
Definition new_record (ty : string) (amount : Z) (s : State) : gmap string value :=
  transaction ty amount (reading s) (balance s).

Definition recorded (ty : string) (amount : Z) (items : list loc) (s : State) : State :=
  let w := BankAccount.world s in
  let l := fresh (dom (heap w)) in
  BankAccount.mkState (BankAccount.self s)
    (mkWorld (<[own_list s := PyList (items ++ [l])]>
                (<[l := PyDict (new_record ty amount s)]> (heap w)))
             (clock w) (S (ticks w))).

(** The state after [self._balance = v]. *)
Definition with_balance (v : Z) (s : State) : State :=
  BankAccount.mkState
    (BankAccount.mk v (own_list s)
                      (BankAccount._overdraft_limit (BankAccount.self s)))
    (BankAccount.world s).

(** The last record of the history holds the balance of the account. *)
Definition last_record_current (s : State) : Prop :=
  ∀ d, last (history s) = Some d → d !! "resulting_balance" = Some (Num (balance s)).

(** *** The account of the test-suite

    [BankAccount(100, 200)] made in an empty heap, with a clock that reads
    0, 1, 2, ... *)
Definition empty_world : World := mkWorld ∅ Z.of_nat 0.

Definition account_100_200 : State :=
  BankAccount.mkState (BankAccount.mk 100 1%positive 200)
    (mkWorld (<[1%positive := PyList [2%positive]]>
               (<[2%positive := PyDict (transaction "initial deposit" 100 0 100)]> ∅))
             Z.of_nat 1).

(** ** Further vocabulary: the shape of the records and their replay *)

(** A record as [_record_transaction] makes it, of one of the given types
    and for a positive amount. *)
Definition is_transaction (types : list string) (d : gmap string value) : Prop :=
  ∃ ty amount timestamp resulting_balance,
    d = transaction ty amount timestamp resulting_balance
    ∧ ty ∈ types ∧ 0 < amount.

(** What a record did to the balance: a withdrawal took its amount, the
    other types added it. *)
Definition signed_amount (d : gmap string value) : Z :=
  match d !! "type", d !! "amount" with
  | Some (Str ty), Some (Num amount) =>
      if String.eqb ty "withdrawal" then - amount else amount
  | _, _ => 0
  end.

(** A record as [_record_transaction] makes it, of one of the given types,
    for an amount on which the test [passed] of the call that made it
    holds. *)
Definition is_record (types : list string) (passed : Z → bool)
    (d : gmap string value) : Prop :=
  ∃ ty amount timestamp resulting_balance,
    d = transaction ty amount timestamp resulting_balance
    ∧ ty ∈ types ∧ passed amount = true.

(** The operation a record stands for, done again on a balance [b]: a
    withdrawal is [b - amount], the other types [b + amount]; and the
    records of a list done again in order, from the first. *)
Definition apply_record (b : Z) (d : gmap string value) : Z :=
  match d !! "type", d !! "amount" with
  | Some (Str ty), Some (Num amount) =>
      if String.eqb ty "withdrawal" then b - amount else b + amount
  | _, _ => b
  end.

Definition replay (b : Z) (ds : list (gmap string value)) : Z :=
  foldl apply_record b ds.

(** The calls of a run that succeed, in order. *)
Fixpoint successful_calls (cs : list Call) (s : State) : list Call :=
  match cs with
  | [] => []
  | c :: cs =>
      let '(r, s') := call c s in
      if succeeded r then c :: successful_calls cs s'
      else successful_calls cs s'
  end.

(** * The command-line shell: class [BankAccountSimulator] of [src/app.py]

    The shell reads lines from standard input, calls the account or the
    stateless functions, and prints.  Standard input is the list of the
    lines still to come, each with what [float] makes of it (a number, or
    the [ValueError] it raises); standard output is the list of the texts
    written so far.  Exceptions other than [ValueError] reach the shell
    too: [EOFError] from [input] at the end of the input, [SystemExit] from
    [sys.exit]. *)

Record Line := mkLine {
  text : string;
  as_float : result Z
}.

Inductive raised :=
| Exn (e : exn)
| EOFError
| SystemExit (code : Z)
| KeyError (key : string)
| AttributeError
| TypeError.

Inductive outcome (A : Type) :=
| Ok (a : A)
| Throw (e : raised).
Arguments Ok {A} a.
Arguments Throw {A} e.

(** The newline [print] ends its text with. *)
Definition nl : string := String (Ascii.ascii_of_nat 10) "".

(** [f"{z:.2f}"] for an integer [z]. *)
Definition format_2f (z : Z) : string := pretty z +:+ ".00".

Module BankAccountSimulator.

Record t := mk {
  current_mode : string;
  account : option BankAccount.t;
  balance : Z;
  overdraft_limit : Z
}.

Record Sys := mkSys {
  self : t;
  world : World;
  stdin : list Line;
  stdout : list string
}.

Definition IO (A : Type) : Type := Sys → outcome A * Sys.

#[export] Instance IO_ret : MRet IO := λ A a sys, (Ok a, sys).

#[export] Instance IO_bind : MBind IO := λ A B f m sys,
  match m sys with
  | (Ok a, sys') => f a sys'
  | (Throw e, sys') => (Throw e, sys')
  end.

Definition throw {A} (e : raised) : IO A := λ sys, (Throw e, sys).

(** [try: body except ValueError as e: handler] *)
Definition try_except_ValueError {A} (body : IO A) (handler : exn → IO A) : IO A :=
  λ sys,
    match body sys with
    | (Throw (Exn e), sys') => handler e sys'
    | other => other
    end.

(** [print(s)] *)
Definition print (s : string) : IO unit := λ sys,
  (Ok (), mkSys (self sys) (world sys) (stdin sys) (stdout sys ++ [s +:+ nl])).

(** [input(prompt)] *)
Definition input (prompt : string) : IO Line := λ sys,
  let out := stdout sys ++ [prompt] in
  match stdin sys with
  | [] => (Throw EOFError, mkSys (self sys) (world sys) [] out)
  | line :: rest => (Ok line, mkSys (self sys) (world sys) rest out)
  end.

(** [float(line)] *)
Definition float (line : Line) : IO Z :=
  match as_float line with
  | Return z => mret z
  | Raise e => throw (Exn e)
  end.

(** [self.<attribute>] and [self.<attribute> = v] *)
Definition attr {A} (f : t → A) : IO A := λ sys, (Ok (f (self sys)), sys).

Definition set_self (f : t → t) : IO unit := λ sys,
  (Ok (), mkSys (f (self sys)) (world sys) (stdin sys) (stdout sys)).

Definition set_current_mode (v : string) : IO unit :=
  set_self (λ sh, mk v (account sh) (balance sh) (overdraft_limit sh)).

Definition set_account (v : BankAccount.t) : IO unit :=
  set_self (λ sh, mk (current_mode sh) (Some v) (balance sh) (overdraft_limit sh)).

Definition set_balance (v : Z) : IO unit :=
  set_self (λ sh, mk (current_mode sh) (account sh) v (overdraft_limit sh)).

Definition set_overdraft_limit (v : Z) : IO unit :=
  set_self (λ sh, mk (current_mode sh) (account sh) (balance sh) v).

(** [self.current_mode == 'stateful'] *)
Definition is_stateful (sh : t) : bool := String.eqb (current_mode sh) "stateful".

(** A stateless function of the account module called by the shell. *)
Definition pure {A} (r : result A) : IO A :=
  match r with
  | Return a => mret a
  | Raise e => throw (Exn e)
  end.

(** [self.account.<method>(...)]: the method runs on the account object in
    the shell's world; on [None] the attribute lookup fails. *)
Definition on_account {A} (method : BankAccount.M A) : IO A := λ sys,
  match account (self sys) with
  | None => (Throw AttributeError, sys)
  | Some a =>
      let '(r, s) := method (BankAccount.mkState a (world sys)) in
      let sh := self sys in
      let sys' := mkSys (mk (current_mode sh) (Some (BankAccount.self s))
                            (balance sh) (overdraft_limit sh))
                        (BankAccount.world s) (stdin sys) (stdout sys) in
      match r with
      | Return x => (Ok x, sys')
      | Raise e => (Throw (Exn e), sys')
      end
  end.

(** [BankAccount(initial_balance, overdraft_limit)] *)
Definition new_account (initial_balance overdraft_limit : Z) : IO BankAccount.t :=
  λ sys,
    match BankAccount.__init__ initial_balance overdraft_limit (world sys) with
    | Return s =>
        (Ok (BankAccount.self s),
         mkSys (self sys) (BankAccount.world s) (stdin sys) (stdout sys))
    | Raise e => (Throw (Exn e), sys)
    end.

(** [BankAccountSimulator()]: the attributes [__init__] sets; the dict
    [menu_options] is below. *)
Definition __init__ : t := mk "stateful" None 0 0.

Definition display_menu : IO unit :=
  print (nl +:+ "===== Bank Account Simulator =====");;
  sh ← attr id;
  print ("Current Mode: " +:+
         (if is_stateful sh then "OOP (Stateful)" else "Functional (Stateless)"));;
  balance ← (if is_stateful sh then
               match account sh with
               | Some _ => on_account BankAccount.get_balance
               | None => mret 0
               end
             else attr balance);
  print ("Current Balance: $" +:+ format_2f balance);;
  print (nl +:+ "Options:");;
  print "1. Create new account";;
  print "2. Make a deposit";;
  print "3. Make a withdrawal";;
  print "4. Check balance";;
  print "5. View transaction history (Stateful mode only)";;
  print "6. Switch mode (Stateful/Functional)";;
  print "7. Exit".

Definition _check_account_exists : IO bool :=
  sh ← attr id;
  if is_stateful sh && negb (bool_decide (is_Some (account sh))) then
    print "Please create an account first (Option 1).";;
    mret false
  else mret true.

Definition create_account : IO unit :=
  try_except_ValueError
    (line ← input "Enter initial balance: $";
     initial_balance ← float line;
     line ← input "Enter overdraft limit (0 for none): $";
     overdraft_limit ← float line;
     sh ← attr id;
     if is_stateful sh then
       a ← new_account initial_balance overdraft_limit;
       set_account a;;
       print ("Account created with balance: $" +:+ format_2f initial_balance)
     else
       set_balance initial_balance;;
       set_overdraft_limit overdraft_limit;;
       b ← attr balance;
       print ("Account created with balance: $" +:+ format_2f b))
    (λ '(ValueError e), print ("Error: " +:+ e)).

Definition make_deposit : IO unit :=
  exists_ ← _check_account_exists;
  if exists_ : bool then
    try_except_ValueError
      (line ← input "Enter deposit amount: $";
       amount ← float line;
       sh ← attr id;
       new_balance ← (if is_stateful sh then
                        on_account (BankAccount.deposit amount)
                      else
                        b ← pure (deposit (balance sh) amount);
                        set_balance b;;
                        attr balance);
       print ("Deposit successful. New balance: $" +:+ format_2f new_balance))
      (λ '(ValueError e), print ("Error: " +:+ e))
  else mret ().

Definition make_withdrawal : IO unit :=
  exists_ ← _check_account_exists;
  if exists_ : bool then
    try_except_ValueError
      (line ← input "Enter withdrawal amount: $";
       amount ← float line;
       sh ← attr id;
       new_balance ← (if is_stateful sh then
                        on_account (BankAccount.withdraw amount)
                      else
                        b ← pure (withdraw (balance sh) amount (overdraft_limit sh));
                        set_balance b;;
                        attr balance);
       print ("Withdrawal successful. New balance: $" +:+ format_2f new_balance))
      (λ '(ValueError e), print ("Error: " +:+ e))
  else mret ().

Definition check_balance : IO unit :=
  exists_ ← _check_account_exists;
  if exists_ : bool then
    sh ← attr id;
    b ← (if is_stateful sh then on_account BankAccount.get_balance
         else mret (get_balance (balance sh)));
    print ("Current balance: $" +:+ format_2f b)
  else mret ().

(** [transaction[key]] *)
Definition getitem (d : gmap string value) (key : string) : IO value :=
  match d !! key with
  | Some v => mret v
  | None => throw (KeyError key)
  end.

(** The texts the loop of [view_transaction_history] formats from the
    values of a record.  A record made by [_record_transaction] has a
    string, a number, a datetime and a number; for a value of another type,
    where Python raises or formats something else, the model raises
    [TypeError].  [strftime fmt t] stands for [t.strftime(fmt)]. *)
Definition as_str (v : value) : IO string :=
  match v with Str s => mret s | _ => throw TypeError end.

Definition as_2f (v : value) : IO string :=
  match v with Num z => mret (format_2f z) | _ => throw TypeError end.

Definition as_date (strftime : string → datetime → string) (v : value) : IO string :=
  match v with
  | Datetime t => mret (strftime "%Y-%m-%d %H:%M:%S" t)
  | _ => throw TypeError
  end.

(** The item of a list as a dict. *)
Definition dict_of (x : loc) : IO (gmap string value) := λ sys,
  match dict_at (heap (world sys)) x with
  | Some d => (Ok d, sys)
  | None => (Throw TypeError, sys)
  end.

(** [for i, transaction in enumerate(history, i): ...] *)
Fixpoint print_transactions (strftime : string → datetime → string)
    (i : nat) (items : list loc) : IO unit :=
  match items with
  | [] => mret ()
  | x :: items =>
      transaction ← dict_of x;
      print ("Transaction #" +:+ pretty i +:+ ":");;
      ty ← getitem transaction "type" ≫= as_str;
      print ("  Type: " +:+ ty);;
      amount ← getitem transaction "amount" ≫= as_2f;
      print ("  Amount: $" +:+ amount);;
      date ← getitem transaction "timestamp" ≫= as_date strftime;
      print ("  Date: " +:+ date);;
      resulting_balance ← getitem transaction "resulting_balance" ≫= as_2f;
      print ("  Resulting Balance: $" +:+ resulting_balance);;
      print "";;
      print_transactions strftime (S i) items
  end.

Definition view_transaction_history (strftime : string → datetime → string) : IO unit :=
  sh ← attr id;
  if negb (is_stateful sh) then
    print "Transaction history is only available in stateful (OOP) mode."
  else
    exists_ ← _check_account_exists;
    if exists_ : bool then
      history ← on_account BankAccount.get_transaction_history;
      items ← (λ sys, (Ok (list_items (heap (world sys)) history), sys));
      match items with
      | [] => print "No transactions recorded yet."
      | _ =>
          print (nl +:+ "===== Transaction History =====");;
          print_transactions strftime 1 items;;
          print ("Total transactions: " +:+ pretty (length items))
      end
    else mret ().

Definition switch_mode : IO unit :=
  sh ← attr id;
  if is_stateful sh then
    match account sh with
    | Some _ => b ← on_account BankAccount.get_balance; set_balance b
    | None => mret ()
    end;;
    set_current_mode "stateless";;
    print "Switched to Functional (Stateless) mode."
  else
    a ← new_account (balance sh) (overdraft_limit sh);
    set_account a;;
    set_current_mode "stateful";;
    print "Switched to OOP (Stateful) mode.".

Definition exit_program : IO unit :=
  print "Thank you for using the Bank Account Simulator!";;
  throw (SystemExit 0).

Definition menu_options (strftime : string → datetime → string) : gmap string (IO unit) :=
  {[ "1" := create_account;
     "2" := make_deposit;
     "3" := make_withdrawal;
     "4" := check_balance;
     "5" := view_transaction_history strftime;
     "6" := switch_mode;
     "7" := exit_program ]}.

(** One turn of the loop of [run]. *)
Definition turn (strftime : string → datetime → string) : IO unit :=
  display_menu;;
  choice ← input (nl +:+ "Enter your choice (1-7): ");
  match menu_options strftime !! text choice with
  | Some action => action
  | None => print "Invalid choice. Please try again."
  end.

(** [while True: ...]: the loop ends only by an exception; [None] when it
    has not ended within [fuel] turns. *)
Fixpoint loop (strftime : string → datetime → string) (fuel : nat) (sys : Sys)
    : option (raised * Sys) :=
  match fuel with
  | O => None
  | S fuel =>
      match turn strftime sys with
      | (Ok _, sys') => loop strftime fuel sys'
      | (Throw e, sys') => Some (e, sys')
      end
  end.

Definition welcome : IO unit :=
  print "Welcome to the Bank Account Simulator!";;
  print "This application demonstrates two different implementation approaches:";;
  print "  - Stateful (Object-Oriented Programming)";;
  print "  - Stateless (Functional Programming)".

Definition run (strftime : string → datetime → string) (fuel : nat) (sys : Sys)
    : option (raised * Sys) :=
  loop strftime fuel (welcome sys).2.

End BankAccountSimulator.

(** ** Observations of the shell *)

(** The account the shell holds, as an account state in the shell's world. *)
Definition account_state (sys : BankAccountSimulator.Sys) : option State :=
  (λ a, BankAccount.mkState a (BankAccountSimulator.world sys))
    <$> BankAccountSimulator.account (BankAccountSimulator.self sys).

Definition in_stateful_mode (sys : BankAccountSimulator.Sys) : Prop :=
  BankAccountSimulator.current_mode (BankAccountSimulator.self sys) = "stateful".

(** The balance and the limit in force in the current mode: the account's
    in stateful mode, the shell's own otherwise.  The menu shows this
    balance (0 while there is no account). *)
Definition current_balance (sh : BankAccountSimulator.t) : Z :=
  if BankAccountSimulator.is_stateful sh then
    match BankAccountSimulator.account sh with
    | Some a => BankAccount._balance a
    | None => 0
    end
  else BankAccountSimulator.balance sh.

Definition current_limit (sh : BankAccountSimulator.t) : Z :=
  if BankAccountSimulator.is_stateful sh then
    match BankAccountSimulator.account sh with
    | Some a => BankAccount._overdraft_limit a
    | None => 0
    end
  else BankAccountSimulator.overdraft_limit sh.

(** What the shell keeps true of the account it holds: the account is
    well-formed, within its limit, and its records are transactions. *)
Definition account_ok (s : State) : Prop :=
  well_formed s
  ∧ - overdraft_limit s ≤ balance s
  ∧ 0 ≤ overdraft_limit s
  ∧ Forall (is_transaction ["initial deposit"; "deposit"; "withdrawal"]) (history s).

Definition sys_ok (sys : BankAccountSimulator.Sys) : Prop :=
  ∀ s, account_state sys = Some s → account_ok s.

(** The exceptions that end [run]. *)
Definition ends_run (e : raised) : Prop :=
  e = EOFError ∨ e = SystemExit 0
  ∨ e = Exn (ValueError "Initial balance cannot be negative").

(** A handler keeps the account well, reads input only forward, and raises
    nothing but what ends [run]. *)
Definition handler_ok (h : BankAccountSimulator.IO unit) : Prop :=
  ∀ sys, sys_ok sys →
    sys_ok (h sys).2
    ∧ (length (BankAccountSimulator.stdin (h sys).2)
       ≤ length (BankAccountSimulator.stdin sys))%nat
    ∧ ∀ e, (h sys).1 = Throw e → ends_run e.

(** The shell right after [BankAccountSimulator()], before any input. *)
Definition new_shell (w : World) (lines : list Line) : BankAccountSimulator.Sys :=
  BankAccountSimulator.mkSys BankAccountSimulator.__init__ w lines [].

(** The shell in stateful mode holding the account of the test-suite, and
    the shell in stateless mode with a balance and a limit of its own; a
    line that [float] reads as a number, and one it rejects. *)
Definition shell_100_200 (lines : list Line) : BankAccountSimulator.Sys :=
  BankAccountSimulator.mkSys
    (BankAccountSimulator.mk "stateful" (Some (BankAccount.self account_100_200)) 0 0)
    (BankAccount.world account_100_200) lines [].

Definition stateless_shell (b l : Z) (lines : list Line) : BankAccountSimulator.Sys :=
  BankAccountSimulator.mkSys (BankAccountSimulator.mk "stateless" None b l)
    empty_world lines [].

Definition number (z : Z) : Line := mkLine (pretty z) (Return z).

(** [float(s)] of a text that is no number raises with the text quoted (by
    [repr], which for a text without quotes or escapes puts it between
    single quotes). *)
Definition not_a_number (s : string) : Line :=
  mkLine s (Raise (ValueError ("could not convert string to float: '" +:+ s +:+ "'"))).

(** * The account over binary64

    The source annotates amounts, balances and limits as [float], and both
    shells pass what [float(...)] returns: a binary64 number, which can be
    [nan] or [inf].  The class and the stateless functions are embedded
    here once more, line by line as above, over the binary64 numbers of
    [PrimFloat]: [+], [-] and unary [-] round as IEEE 754 has them, and a
    comparison with [nan] is false, as in Python.  An [int] argument stands
    for the float of the same value.  How [str] prints a float is not
    modelled: the message of [withdraw] keeps the limit it formats. *)

Module Binary64.

Import PrimFloat.
Local Open Scope float_scope.

Inductive value :=
| Num (x : float)
| Str (s : string)
| Datetime (t : datetime).

Inductive object :=
| PyList (items : list loc)
| PyDict (d : gmap string value).

Record World := mkWorld {
  heap : gmap loc object;
  clock : nat → datetime;
  ticks : nat
}.

(** A message: a text, or the f-string [f"{text}{x}"]. *)
Inductive message :=
| Text (s : string)
| FString (s : string) (x : float).

Inductive exn := ValueError (msg : message).

Inductive result (A : Type) :=
| Return (a : A)
| Raise (e : exn).
Arguments Return {A} a.
Arguments Raise {A} e.

Definition alloc (o : object) (w : World) : loc * World :=
  let l := fresh (dom (heap w)) in
  (l, mkWorld (<[l := o]> (heap w)) (clock w) (ticks w)).

Definition now (w : World) : datetime * World :=
  (clock w (ticks w), mkWorld (heap w) (clock w) (S (ticks w))).

Definition list_items (h : gmap loc object) (l : loc) : list loc :=
  match h !! l with
  | Some (PyList items) => items
  | _ => []
  end.

Definition dict_at (h : gmap loc object) (l : loc) : option (gmap string value) :=
  match h !! l with
  | Some (PyDict d) => Some d
  | _ => None
  end.

(** [max(a, b)]: the first argument, unless the second compares greater. *)
Definition max (a b : float) : float := if a <? b then b else a.

Module BankAccount.

Record t := mk {
  _balance : float;
  _transaction_history : loc;
  _overdraft_limit : float
}.

Record State := mkState {
  self : t;
  world : World
}.

Definition M (A : Type) : Type := State → result A * State.

#[export] Instance M_ret : MRet M := λ A a s, (Return a, s).

#[export] Instance M_bind : MBind M := λ A B f m s,
  match m s with
  | (Return a, s') => f a s'
  | (Raise e, s') => (Raise e, s')
  end.

Definition raise {A} (e : exn) : M A := λ s, (Raise e, s).

Definition attr {A} (f : t → A) : M A := λ s, (Return (f (self s)), s).

Definition set_balance (v : float) : M unit := λ s,
  (Return (),
   mkState (mk v (_transaction_history (self s)) (_overdraft_limit (self s)))
           (world s)).

Definition in_world {A} (f : World → A * World) : M A := λ s,
  let '(a, w) := f (world s) in (Return a, mkState (self s) w).

Definition list_append (lst x : loc) : M unit :=
  in_world (λ w,
    match heap w !! lst with
    | Some (PyList items) =>
        ((), mkWorld (<[lst := PyList (items ++ [x])]> (heap w)) (clock w) (ticks w))
    | _ => ((), w)
    end).

Definition _record_transaction (transaction_type : string) (amount : float) : M unit :=
  timestamp ← in_world now;
  resulting_balance ← attr _balance;
  transaction ← in_world (alloc (PyDict
    {[ "type" := Str transaction_type;
       "amount" := Num amount;
       "timestamp" := Datetime timestamp;
       "resulting_balance" := Num resulting_balance ]}));
  history ← attr _transaction_history;
  list_append history transaction.

Definition __init__ (initial_balance overdraft_limit : float) (w : World) : result State :=
  if initial_balance <? 0 then
    Raise (ValueError (Text "Initial balance cannot be negative"))
  else
    let '(history, w) := alloc (PyList []) w in
    let s := mkState (mk initial_balance history (max 0 overdraft_limit)) w in
    if 0 <? initial_balance then
      Return (_record_transaction "initial deposit" initial_balance s).2
    else Return s.

Definition deposit (amount : float) : M float :=
  if amount <=? 0 then
    raise (ValueError (Text "Deposit amount must be positive"))
  else
    balance ← attr _balance;
    set_balance (balance + amount);;
    _record_transaction "deposit" amount;;
    attr _balance.

Definition withdraw (amount : float) : M float :=
  if amount <=? 0 then
    raise (ValueError (Text "Withdrawal amount must be positive"))
  else
    balance ← attr _balance;
    overdraft_limit ← attr _overdraft_limit;
    if balance - amount <? - overdraft_limit then
      raise (ValueError
        (FString "Withdrawal would exceed overdraft limit of " overdraft_limit))
    else
      set_balance (balance - amount);;
      _record_transaction "withdrawal" amount;;
      attr _balance.

Definition get_balance : M float := attr _balance.

End BankAccount.

(** The stateless [deposit] and [withdraw]. *)
Definition deposit (balance amount : float) : result float :=
  if amount <=? 0 then
    Raise (ValueError (Text "Deposit amount must be positive"))
  else Return (balance + amount).

Definition withdraw (balance amount overdraft_limit : float) : result float :=
  if amount <=? 0 then
    Raise (ValueError (Text "Withdrawal amount must be positive"))
  else
    let new_balance := balance - amount in
    if new_balance <? - overdraft_limit then
      Raise (ValueError
        (FString "Withdrawal would exceed overdraft limit of " overdraft_limit))
    else Return new_balance.

(** Observations and runs, as for the account above. *)
Definition balance (s : BankAccount.State) : float :=
  BankAccount._balance (BankAccount.self s).

Definition overdraft_limit (s : BankAccount.State) : float :=
  BankAccount._overdraft_limit (BankAccount.self s).

(** The amounts of the history's records, in order. *)
Definition amounts (s : BankAccount.State) : list float :=
  omap (λ l, d ← dict_at (heap (BankAccount.world s)) l;
             match d !! "amount" with Some (Num x) => Some x | _ => None end)
       (list_items (heap (BankAccount.world s))
                   (BankAccount._transaction_history (BankAccount.self s))).

Inductive Call :=
| Deposit (amount : float)
| Withdraw (amount : float).

Definition call (c : Call) : BankAccount.M float :=
  match c with
  | Deposit amount => BankAccount.deposit amount
  | Withdraw amount => BankAccount.withdraw amount
  end.

Fixpoint run (cs : list Call) (s : BankAccount.State)
    : list (result float) * BankAccount.State :=
  match cs with
  | [] => ([], s)
  | c :: cs =>
      let '(r, s) := call c s in
      let '(rs, s) := run cs s in
      (r :: rs, s)
  end.

Definition empty_world : World := mkWorld ∅ Z.of_nat 0.

End Binary64.

(** * Proofs *)

Lemma fresh_loc_None (h : gmap loc object) : h !! fresh (dom h) = None.
Proof. apply not_elem_of_dom, is_fresh. Qed.

Lemma record_transaction_eq ty amount items s :
  heap_of s !! own_list s = Some (PyList items) →
  BankAccount._record_transaction ty amount s = (Return (), recorded ty amount items s).
Proof.
  intros Hh. destruct s as [[b h l] [hp ck tk]]; simpl in *.
  unfold BankAccount._record_transaction, recorded, mbind, BankAccount.M_bind,
    BankAccount.in_world, BankAccount.attr, BankAccount.list_append, now, alloc; simpl.
  unfold BankAccount.in_world; simpl.
  rewrite lookup_insert_ne.
  2:{ intros E. pose proof (fresh_loc_None hp) as Hn. rewrite E in Hn. congruence. }
  rewrite Hh. reflexivity.
Qed.

(** ** The heap: what an allocation and a list update leave alone *)

Lemma dict_at_insert_list (h : gmap loc object) l items items' x :
  h !! l = Some (PyList items) →
  dict_at (<[l := PyList items']> h) x = dict_at h x.
Proof.
  intros Hl. unfold dict_at. destruct (decide (l = x)) as [->|Hne].
  - by rewrite lookup_insert_eq, Hl.
  - by rewrite lookup_insert_ne.
Qed.

Lemma dict_at_insert_fresh (h : gmap loc object) l o x :
  h !! l = None → is_Some (dict_at h x) →
  dict_at (<[l := o]> h) x = dict_at h x.
Proof.
  intros Hl [d Hd]. unfold dict_at in *. rewrite lookup_insert_ne; [done|].
  intros ->. by rewrite Hl in Hd.
Qed.

Lemma omap_dict_at_ext (h h' : gmap loc object) items :
  Forall (λ x, dict_at h' x = dict_at h x) items →
  omap (dict_at h') items = omap (dict_at h) items.
Proof.
  induction 1 as [|x xs Hx _ IH]; csimpl; [done|]. by rewrite Hx, IH.
Qed.

Lemma list_items_insert_eq (h : gmap loc object) l items :
  list_items (<[l := PyList items]> h) l = items.
Proof. unfold list_items. by rewrite lookup_insert_eq. Qed.

Lemma list_items_insert_ne (h : gmap loc object) l o x :
  l ≠ x → list_items (<[l := o]> h) x = list_items h x.
Proof. intros. unfold list_items. by rewrite lookup_insert_ne. Qed.

Lemma list_value_insert_fresh (h : gmap loc object) r o l items :
  h !! r = None → h !! l = Some (PyList items) →
  Forall (λ x, is_Some (dict_at h x)) items →
  list_value (<[r := o]> h) l = omap (dict_at h) items.
Proof.
  intros Hr Hl Hall. unfold list_value.
  rewrite list_items_insert_ne by (intros ->; congruence).
  unfold list_items. rewrite Hl. apply omap_dict_at_ext.
  eapply Forall_impl; [exact Hall|]. intros x Hx. by apply dict_at_insert_fresh.
Qed.

Lemma list_value_insert_eq (h : gmap loc object) r items :
  h !! r = None →
  Forall (λ x, is_Some (dict_at h x)) items →
  list_value (<[r := PyList items]> h) r = omap (dict_at h) items.
Proof.
  intros Hr Hall. unfold list_value. rewrite list_items_insert_eq.
  apply omap_dict_at_ext.
  eapply Forall_impl; [exact Hall|]. intros x Hx. by apply dict_at_insert_fresh.
Qed.

Lemma well_formed_items s :
  well_formed s →
  ∃ items,
    heap_of s !! own_list s
      = Some (PyList items)
    ∧ Forall (λ l, is_Some (dict_at (heap_of s) l)) items
    ∧ history s = omap (dict_at (heap_of s)) items.
Proof.
  intros (items & Hh & Hall). exists items. split_and!; [done..|].
  unfold history, list_value, list_items. by rewrite Hh.
Qed.

(** ** [_record_transaction] appends one record *)

Lemma recorded_spec ty amount items s :
  heap_of s !! own_list s
    = Some (PyList items) →
  Forall (λ l, is_Some (dict_at (heap_of s) l)) items →
  history (recorded ty amount items s) = history s ++ [new_record ty amount s]
  ∧ well_formed (recorded ty amount items s).
Proof.
  intros Hh Hall.
  set (h := heap_of s) in *.
  set (l := fresh (dom h)).
  assert (Hl : h !! l = None) by apply fresh_loc_None.
  set (d := new_record ty amount s).
  assert (Hh' : <[l := PyDict d]> h !! own_list s
                = Some (PyList items)).
  { rewrite lookup_insert_ne; [done|]. intros E. rewrite <- E in Hh. congruence. }
  assert (Hold : Forall (λ x, dict_at (<[own_list s
                   := PyList (items ++ [l])]> (<[l := PyDict d]> h)) x = dict_at h x) items).
  { eapply Forall_impl; [exact Hall|]. intros x Hx. simpl.
    rewrite (dict_at_insert_list _ _ items) by done.
    by apply dict_at_insert_fresh. }
  assert (Hnew : dict_at (<[own_list s
                   := PyList (items ++ [l])]> (<[l := PyDict d]> h)) l = Some d).
  { rewrite (dict_at_insert_list _ _ items) by done.
    unfold dict_at. by rewrite lookup_insert_eq. }
  split.
  - unfold history at 1, list_value, recorded; simpl. fold h l d.
    rewrite list_items_insert_eq, omap_app, (omap_dict_at_ext h) by done.
    csimpl. rewrite Hnew.
    unfold history, list_value, list_items. fold h. by rewrite Hh.
  - exists (items ++ [l]). unfold recorded; simpl. fold h l d. split.
    + by rewrite lookup_insert_eq.
    + apply Forall_app. split.
      * rewrite Forall_forall in Hall, Hold |- *.
        intros x Hx. rewrite Hold by done. by apply Hall.
      * apply Forall_singleton. by rewrite Hnew.
Qed.

Lemma record_transaction_spec ty amount s :
  well_formed s →
  ∃ s', BankAccount._record_transaction ty amount s = (Return (), s')
        ∧ BankAccount.self s' = BankAccount.self s
        ∧ history s' = history s ++ [new_record ty amount s]
        ∧ well_formed s'.
Proof.
  intros (items & Hh & Hall). exists (recorded ty amount items s).
  destruct (recorded_spec ty amount items s Hh Hall) as [Hhist Hwf].
  split_and!; [by apply record_transaction_eq|done..].
Qed.

(** Whatever the heap, [_record_transaction] returns and leaves the
    attributes of the account alone. *)
Lemma record_transaction_self ty amount s :
  ∃ w, BankAccount._record_transaction ty amount s
       = (Return (), BankAccount.mkState (BankAccount.self s) w).
Proof.
  destruct s as [a [hp ck tk]].
  unfold BankAccount._record_transaction, mbind, BankAccount.M_bind,
    BankAccount.attr, BankAccount.list_append, now, alloc; simpl.
  unfold BankAccount.in_world; simpl.
  destruct (_ !! _) as [[?|?]|]; eauto.
Qed.

(** ** The two kinds of failure *)

Lemma error_kind_initial :
  error_kind (ValueError "Initial balance cannot be negative") = Some InvalidArgument.
Proof. reflexivity. Qed.

Lemma error_kind_deposit :
  error_kind (ValueError "Deposit amount must be positive") = Some InvalidArgument.
Proof. reflexivity. Qed.

Lemma error_kind_withdrawal :
  error_kind (ValueError "Withdrawal amount must be positive") = Some InvalidArgument.
Proof. reflexivity. Qed.

Lemma prefix_append (p x : string) : String.prefix p (p +:+ x) = true.
Proof.
  induction p as [|a p IH]; [by destruct x|].
  change (String a p +:+ x) with (String a (p +:+ x)).
  change (String.prefix (String a p) (String a (p +:+ x)))
    with (if Ascii.ascii_dec a a then String.prefix p (p +:+ x) else false).
  rewrite IH. by destruct (Ascii.ascii_dec a a).
Qed.

Lemma error_kind_overdraft (limit : Z) :
  error_kind (ValueError
    ("Withdrawal would exceed overdraft limit of " +:+ pretty limit))
  = Some OverdraftExceeded.
Proof.
  unfold error_kind. rewrite bool_decide_eq_false_2.
  - by rewrite prefix_append.
  - intros Hin. repeat (apply elem_of_cons in Hin as [Hin|Hin]; [discriminate Hin|]).
    by apply elem_of_nil in Hin.
Qed.

(** ** The methods, one call at a time *)

Lemma well_formed_with_balance v s : well_formed s → well_formed (with_balance v s).
Proof. intros (items & ? & ?). by exists items. Qed.

Lemma history_with_balance v s : history (with_balance v s) = history s.
Proof. reflexivity. Qed.

Lemma deposit_raises amount s :
  amount ≤ 0 →
  BankAccount.deposit amount s = (Raise (ValueError "Deposit amount must be positive"), s).
Proof.
  intros Ha. unfold BankAccount.deposit.
  destruct (Z.leb_spec amount 0); [reflexivity|lia].
Qed.

Lemma withdraw_raises amount s :
  amount ≤ 0 →
  BankAccount.withdraw amount s
  = (Raise (ValueError "Withdrawal amount must be positive"), s).
Proof.
  intros Ha. unfold BankAccount.withdraw.
  destruct (Z.leb_spec amount 0); [reflexivity|lia].
Qed.

Lemma withdraw_overdraft amount s :
  0 < amount → balance s - amount < - overdraft_limit s →
  BankAccount.withdraw amount s
  = (Raise (ValueError ("Withdrawal would exceed overdraft limit of "
                        +:+ pretty (overdraft_limit s))), s).
Proof.
  intros Ha Hlt. unfold BankAccount.withdraw.
  destruct (Z.leb_spec amount 0); [lia|].
  unfold mbind, BankAccount.M_bind, BankAccount.attr; simpl.
  fold (balance s) (overdraft_limit s).
  destruct (Z.ltb_spec (balance s - amount) (- overdraft_limit s)); [reflexivity|lia].
Qed.

Lemma deposit_unfold amount s :
  0 < amount →
  BankAccount.deposit amount s
  = match BankAccount._record_transaction "deposit" amount
            (with_balance (balance s + amount) s) with
    | (Return _, s') => (Return (balance s'), s')
    | (Raise e, s') => (Raise e, s')
    end.
Proof.
  intros Ha. unfold BankAccount.deposit.
  destruct (Z.leb_spec amount 0); [lia|]. reflexivity.
Qed.

Lemma withdraw_unfold amount s :
  0 < amount → - overdraft_limit s ≤ balance s - amount →
  BankAccount.withdraw amount s
  = match BankAccount._record_transaction "withdrawal" amount
            (with_balance (balance s - amount) s) with
    | (Return _, s') => (Return (balance s'), s')
    | (Raise e, s') => (Raise e, s')
    end.
Proof.
  intros Ha Hge. unfold BankAccount.withdraw.
  destruct (Z.leb_spec amount 0); [lia|].
  unfold mbind at 1 2, BankAccount.M_bind at 1 2, BankAccount.attr at 1 2; simpl.
  fold (balance s) (overdraft_limit s).
  destruct (Z.ltb_spec (balance s - amount) (- overdraft_limit s)); [lia|].
  reflexivity.
Qed.

(** A successful call changes the balance and nothing else of the
    account's attributes, whatever the heap. *)
Lemma deposit_returns amount s :
  0 < amount →
  ∃ w, BankAccount.deposit amount s
       = (Return (balance s + amount),
          BankAccount.mkState (BankAccount.self (with_balance (balance s + amount) s)) w).
Proof.
  intros Ha. rewrite deposit_unfold by done.
  destruct (record_transaction_self "deposit" amount
              (with_balance (balance s + amount) s)) as [w ->]. by exists w.
Qed.

Lemma withdraw_returns amount s :
  0 < amount → - overdraft_limit s ≤ balance s - amount →
  ∃ w, BankAccount.withdraw amount s
       = (Return (balance s - amount),
          BankAccount.mkState (BankAccount.self (with_balance (balance s - amount) s)) w).
Proof.
  intros Ha Hge. rewrite withdraw_unfold by done.
  destruct (record_transaction_self "withdrawal" amount
              (with_balance (balance s - amount) s)) as [w ->]. by exists w.
Qed.

(** On a well-formed account a successful call appends its record. *)
Lemma deposit_records amount s :
  0 < amount → well_formed s →
  ∃ s', BankAccount.deposit amount s = (Return (balance s + amount), s')
        ∧ balance s' = balance s + amount
        ∧ overdraft_limit s' = overdraft_limit s
        ∧ history s' = history s
            ++ [transaction "deposit" amount (reading s) (balance s + amount)]
        ∧ well_formed s'.
Proof.
  intros Ha Hwf. rewrite deposit_unfold by done.
  destruct (record_transaction_spec "deposit" amount
              (with_balance (balance s + amount) s)) as (s' & -> & Hself & Hhist & Hwf').
  { by apply well_formed_with_balance. }
  exists s'. unfold balance, overdraft_limit in *. rewrite Hself. by split_and!.
Qed.

Lemma withdraw_records amount s :
  0 < amount → - overdraft_limit s ≤ balance s - amount → well_formed s →
  ∃ s', BankAccount.withdraw amount s = (Return (balance s - amount), s')
        ∧ balance s' = balance s - amount
        ∧ overdraft_limit s' = overdraft_limit s
        ∧ history s' = history s
            ++ [transaction "withdrawal" amount (reading s) (balance s - amount)]
        ∧ well_formed s'.
Proof.
  intros Ha Hge Hwf. rewrite withdraw_unfold by done.
  destruct (record_transaction_spec "withdrawal" amount
              (with_balance (balance s - amount) s)) as (s' & -> & Hself & Hhist & Hwf').
  { by apply well_formed_with_balance. }
  exists s'. unfold balance, overdraft_limit in *. rewrite Hself. by split_and!.
Qed.

(** ** The account of the test-suite *)

Lemma init_100_200 : BankAccount.__init__ 100 200 empty_world = Return account_100_200.
Proof. vm_compute. reflexivity. Qed.

Lemma well_formed_100_200 : well_formed account_100_200.
Proof.
  exists [2%positive]. split; [reflexivity|].
  apply Forall_singleton. eexists. reflexivity.
Qed.

(** ** Single calls: the claims on [deposit] and [withdraw] *)

(** C1. Stateful [withdraw(amount)] with [amount > 0]: when
    [balance - amount >= -overdraft_limit] it returns the new balance
    [balance - amount], which is the balance of the account afterwards (and
    may be [-overdraft_limit] exactly), and on a well-formed account the
    history gains one "withdrawal" record; when
    [balance - amount < -overdraft_limit] it fails with OverdraftExceeded
    and the state (balance, history and all) is what it was. *)
Theorem C1_withdraw_overdraft_rule (amount : Z) (s : State) :
  0 < amount →
  (- overdraft_limit s ≤ balance s - amount →
     ∃ s', BankAccount.withdraw amount s = (Return (balance s - amount), s')
           ∧ balance s' = balance s - amount
           ∧ (well_formed s →
              history s' = history s
                ++ [transaction "withdrawal" amount (reading s) (balance s - amount)]))
  ∧ (balance s - amount < - overdraft_limit s →
     fails_with OverdraftExceeded (BankAccount.withdraw amount s).1
     ∧ (BankAccount.withdraw amount s).2 = s).
Proof.
  intros Ha. split.
  - intros Hge. destruct (withdraw_returns amount s Ha Hge) as [w Hw].
    eexists. split; [exact Hw|]. split; [reflexivity|].
    intros Hwf.
    destruct (withdraw_records amount s Ha Hge Hwf) as (s' & Hs' & _ & _ & Hh & _).
    rewrite Hw in Hs'. injection Hs' as Es. rewrite <- Es in Hh. exact Hh.
  - intros Hlt. rewrite withdraw_overdraft by done. simpl.
    split; [apply error_kind_overdraft|done].
Qed.

Lemma C1_withdraw_overdraft_rule_witness :
  (∃ s', BankAccount.withdraw 300 account_100_200 = (Return (-200), s')
         ∧ balance s' = -200
         ∧ (well_formed account_100_200 →
            history s' = history account_100_200
              ++ [transaction "withdrawal" 300 1 (-200)]))
  ∧ fails_with OverdraftExceeded (BankAccount.withdraw 301 account_100_200).1
  ∧ (BankAccount.withdraw 301 account_100_200).2 = account_100_200.
Proof.
  split.
  - apply (C1_withdraw_overdraft_rule 300 account_100_200); [lia|].
    vm_compute. discriminate.
  - apply (C1_withdraw_overdraft_rule 301 account_100_200); [lia|].
    vm_compute. reflexivity.
Defined.

(** C2. Stateful [deposit(amount)] with [amount > 0], on a well-formed
    account (as every account reached from a construction is, see
    [reached_well_formed]): the balance grows by exactly [amount], the
    history gains exactly one record, of type "deposit", whose amount is
    [amount] and whose resulting_balance is the new balance, and the new
    balance is returned. *)
Theorem C2_deposit_records (amount : Z) (s : State) :
  0 < amount → well_formed s →
  ∃ s' d, BankAccount.deposit amount s = (Return (balance s'), s')
          ∧ balance s' = balance s + amount
          ∧ history s' = history s ++ [d]
          ∧ d !! "type" = Some (Str "deposit")
          ∧ d !! "amount" = Some (Num amount)
          ∧ d !! "resulting_balance" = Some (Num (balance s')).
Proof.
  intros Ha Hwf.
  destruct (deposit_records amount s Ha Hwf) as (s' & Hs' & Hb & _ & Hh & _).
  exists s', (transaction "deposit" amount (reading s) (balance s + amount)).
  rewrite Hb. by split_and!.
Qed.

Lemma C2_deposit_records_witness :
  ∃ s' d, BankAccount.deposit 50 account_100_200 = (Return (balance s'), s')
          ∧ balance s' = 100 + 50
          ∧ history s' = history account_100_200 ++ [d]
          ∧ d !! "type" = Some (Str "deposit")
          ∧ d !! "amount" = Some (Num 50)
          ∧ d !! "resulting_balance" = Some (Num (balance s')).
Proof.
  apply (C2_deposit_records 50 account_100_200); [lia|].
  exists [2%positive]. split; [reflexivity|].
  apply Forall_singleton. eexists. reflexivity.
Defined.

(** C3. For [amount <= 0] the four operations (stateful [deposit] and
    [withdraw], stateless [deposit] and [withdraw]) fail with
    InvalidArgument, and a stateful call leaves the state as it was:
    balance and history are not touched before the failure. *)
Theorem C3_nonpositive_amount_rejected (amount : Z) :
  amount ≤ 0 →
  (∀ s, fails_with InvalidArgument (BankAccount.deposit amount s).1
        ∧ (BankAccount.deposit amount s).2 = s)
  ∧ (∀ s, fails_with InvalidArgument (BankAccount.withdraw amount s).1
          ∧ (BankAccount.withdraw amount s).2 = s)
  ∧ (∀ b, fails_with InvalidArgument (deposit b amount))
  ∧ (∀ b limit, fails_with InvalidArgument (withdraw b amount limit)).
Proof.
  intros Ha. split_and!.
  - intros s. by rewrite deposit_raises.
  - intros s. by rewrite withdraw_raises.
  - intros b. unfold deposit. by destruct (Z.leb_spec amount 0); [|lia].
  - intros b limit. unfold withdraw. by destruct (Z.leb_spec amount 0); [|lia].
Qed.

Lemma C3_nonpositive_amount_rejected_witness :
  (∀ s, fails_with InvalidArgument (BankAccount.deposit (-50) s).1
        ∧ (BankAccount.deposit (-50) s).2 = s)
  ∧ (∀ s, fails_with InvalidArgument (BankAccount.withdraw (-50) s).1
          ∧ (BankAccount.withdraw (-50) s).2 = s)
  ∧ (∀ b, fails_with InvalidArgument (deposit b (-50)))
  ∧ (∀ b limit, fails_with InvalidArgument (withdraw b (-50) limit)).
Proof. apply (C3_nonpositive_amount_rejected (-50)). lia. Defined.

(** C9. The stateless functions: [deposit(balance, amount)] fails with
    InvalidArgument when [amount <= 0] and otherwise returns
    [balance + amount]; [withdraw(balance, amount, overdraft_limit)] fails
    with InvalidArgument when [amount <= 0], with OverdraftExceeded when
    [balance - amount < -overdraft_limit], and otherwise returns
    [balance - amount], for any limit, negative ones included, taken as
    given; [get_balance(balance)] is [balance]. *)
Theorem C9_stateless_functions (b amount limit : Z) :
  (amount ≤ 0 → fails_with InvalidArgument (deposit b amount))
  ∧ (0 < amount → deposit b amount = Return (b + amount))
  ∧ (amount ≤ 0 → fails_with InvalidArgument (withdraw b amount limit))
  ∧ (0 < amount → b - amount < - limit →
     fails_with OverdraftExceeded (withdraw b amount limit))
  ∧ (0 < amount → - limit ≤ b - amount →
     withdraw b amount limit = Return (b - amount))
  ∧ get_balance b = b.
Proof.
  unfold deposit, withdraw, get_balance.
  destruct (Z.leb_spec amount 0), (Z.ltb_spec (b - amount) (- limit));
    split_and!; intros; try lia; try done; apply error_kind_overdraft.
Qed.

Lemma C9_stateless_functions_witness :
  fails_with InvalidArgument (deposit 100 (-50))
  ∧ deposit 100 50 = Return 150
  ∧ fails_with InvalidArgument (withdraw 100 (-50) 200)
  ∧ fails_with OverdraftExceeded (withdraw 100 350 200)
  ∧ withdraw 100 250 200 = Return (-150)
  ∧ fails_with OverdraftExceeded (withdraw 100 80 (-50))
  ∧ get_balance 100 = 100.
Proof.
  split_and!.
  - apply (C9_stateless_functions 100 (-50) 200). lia.
  - apply (C9_stateless_functions 100 50 200). lia.
  - apply (C9_stateless_functions 100 (-50) 200). lia.
  - apply (C9_stateless_functions 100 350 200); lia.
  - apply (C9_stateless_functions 100 250 200); lia.
  - apply (C9_stateless_functions 100 80 (-50)); lia.
  - apply (C9_stateless_functions 100 50 200).
Defined.

(** C10. The check of the amount comes before the overdraft check, in the
    method and in the function: for [amount <= 0], [withdraw] fails with
    InvalidArgument and not with OverdraftExceeded, whatever the balance and
    the limit, so also when [balance - amount < -overdraft_limit]. *)
Theorem C10_amount_check_first (amount : Z) :
  amount ≤ 0 →
  (∀ s, fails_with InvalidArgument (BankAccount.withdraw amount s).1
        ∧ ¬ fails_with OverdraftExceeded (BankAccount.withdraw amount s).1)
  ∧ (∀ b limit, fails_with InvalidArgument (withdraw b amount limit)
                ∧ ¬ fails_with OverdraftExceeded (withdraw b amount limit)).
Proof.
  intros Ha. split.
  - intros s. rewrite withdraw_raises by done. by split.
  - intros b limit. unfold withdraw.
    destruct (Z.leb_spec amount 0); [|lia]. by split.
Qed.

Lemma C10_amount_check_first_witness :
  (-300) - 0 < - 200
  ∧ fails_with InvalidArgument
      (BankAccount.withdraw 0 (with_balance (-300) account_100_200)).1
  ∧ ¬ fails_with OverdraftExceeded
      (BankAccount.withdraw 0 (with_balance (-300) account_100_200)).1
  ∧ fails_with InvalidArgument (withdraw (-300) 0 200)
  ∧ ¬ fails_with OverdraftExceeded (withdraw (-300) 0 200).
Proof.
  split; [lia|].
  pose proof (C10_amount_check_first 0 ltac:(lia)) as [Hm Hf].
  destruct (Hm (with_balance (-300) account_100_200)) as [? ?].
  destruct (Hf (-300) 200) as [? ?].
  by split_and!.
Defined.

(** ** Construction *)

Lemma init_raises initial_balance limit w :
  initial_balance < 0 →
  BankAccount.__init__ initial_balance limit w
  = Raise (ValueError "Initial balance cannot be negative").
Proof.
  intros Hneg. unfold BankAccount.__init__.
  destruct (Z.ltb_spec initial_balance 0); [reflexivity|lia].
Qed.

Lemma init_returns initial_balance limit w :
  0 ≤ initial_balance →
  ∃ s, BankAccount.__init__ initial_balance limit w = Return s
       ∧ balance s = initial_balance
       ∧ overdraft_limit s = Z.max 0 limit
       ∧ well_formed s
       ∧ history s
         = if initial_balance >? 0
           then [transaction "initial deposit" initial_balance
                   (clock w (ticks w)) initial_balance]
           else [].
Proof.
  intros Hpos. unfold BankAccount.__init__.
  destruct (Z.ltb_spec initial_balance 0); [lia|].
  unfold alloc. set (l := fresh (dom (heap w))).
  set (s0 := BankAccount.mkState (BankAccount.mk initial_balance l (Z.max 0 limit))
               (mkWorld (<[l := PyList []]> (heap w)) (clock w) (ticks w))).
  assert (Hh : heap_of s0
               !! own_list s0
               = Some (PyList [])) by apply lookup_insert_eq.
  assert (Hnil : history s0 = []).
  { unfold history, list_value, list_items. by rewrite Hh. }
  destruct (initial_balance >? 0).
  - destruct (recorded_spec "initial deposit" initial_balance [] s0 Hh) as [Hhist Hwf];
      [constructor|].
    rewrite (record_transaction_eq _ _ [] s0 Hh). simpl.
    eexists. split; [reflexivity|]. split_and!; try done.
    by rewrite Hhist, Hnil.
  - exists s0. split_and!; try done. by exists [].
Qed.

(** C5. [BankAccount(initial_balance, overdraft_limit)] fails with
    InvalidArgument iff [initial_balance < 0], and returns an account
    otherwise; the account has balance [initial_balance] and limit
    [max(0, overdraft_limit)]; for [initial_balance > 0] its history is
    exactly one record, of type "initial deposit", with amount and
    resulting_balance [initial_balance]; for [initial_balance = 0] its
    history is empty. *)
Theorem C5_construction (initial_balance limit : Z) (w : World) :
  (fails_with InvalidArgument (BankAccount.__init__ initial_balance limit w)
   ↔ initial_balance < 0)
  ∧ (0 ≤ initial_balance →
     ∃ s, BankAccount.__init__ initial_balance limit w = Return s)
  ∧ (∀ s, BankAccount.__init__ initial_balance limit w = Return s →
       balance s = initial_balance
       ∧ overdraft_limit s = Z.max 0 limit
       ∧ (0 < initial_balance →
          ∃ d, history s = [d]
               ∧ d !! "type" = Some (Str "initial deposit")
               ∧ d !! "amount" = Some (Num initial_balance)
               ∧ d !! "resulting_balance" = Some (Num initial_balance))
       ∧ (initial_balance = 0 → history s = [])).
Proof.
  destruct (Z.lt_ge_cases initial_balance 0) as [Hneg|Hpos].
  - rewrite init_raises by done. split_and!; [done|lia|done].
  - destruct (init_returns initial_balance limit w Hpos)
      as (s & -> & Hb & Hl & _ & Hh).
    split_and!; [split; [done|lia]|by eexists|].
    intros ? [= <-]. split_and!; [done..| |].
    + intros Hgt. destruct (Z.gtb_spec initial_balance 0); [|lia].
      eexists. by split_and!.
    + intros ->. done.
Qed.

Lemma C5_construction_witness :
  (fails_with InvalidArgument (BankAccount.__init__ (-1) 200 empty_world))
  ∧ (∃ s, BankAccount.__init__ 100 (-50) empty_world = Return s)
  ∧ (balance account_100_200 = 100
     ∧ overdraft_limit account_100_200 = Z.max 0 200
     ∧ (0 < 100 →
        ∃ d, history account_100_200 = [d]
             ∧ d !! "type" = Some (Str "initial deposit")
             ∧ d !! "amount" = Some (Num 100)
             ∧ d !! "resulting_balance" = Some (Num 100))
     ∧ (100 = 0 → history account_100_200 = [])).
Proof.
  split; [|split].
  - apply (C5_construction (-1) 200 empty_world). lia.
  - apply (C5_construction 100 (-50) empty_world). lia.
  - destruct (C5_construction 100 200 empty_world) as (_ & _ & H).
    apply H. vm_compute. reflexivity.
Defined.

(** ** One call of a run *)

(** A call gives the result of the stateless function at the account's
    balance and limit, and leaves the balance that result says. *)
Lemma call_agrees c s :
  ∃ s', call c s = (call_stateless (overdraft_limit s) c (balance s), s')
        ∧ overdraft_limit s' = overdraft_limit s
        ∧ balance s'
          = match call_stateless (overdraft_limit s) c (balance s) with
            | Return b => b
            | Raise _ => balance s
            end.
Proof.
  destruct c as [amount|amount]; simpl; unfold deposit, withdraw.
  - destruct (Z.leb_spec amount 0) as [Hle|Hgt].
    + rewrite deposit_raises by done. by exists s.
    + destruct (deposit_returns amount s Hgt) as [w ->]. by eexists.
  - destruct (Z.leb_spec amount 0) as [Hle|Hgt].
    + rewrite withdraw_raises by done. by exists s.
    + destruct (Z.ltb_spec (balance s - amount) (- overdraft_limit s)) as [Hlt|Hge].
      * rewrite withdraw_overdraft by done. by exists s.
      * destruct (withdraw_returns amount s Hgt Hge) as [w ->]. by eexists.
Qed.

Lemma call_bound c s :
  - overdraft_limit s ≤ balance s →
  - overdraft_limit (call c s).2 ≤ balance (call c s).2.
Proof.
  intros Hinv. destruct (call_agrees c s) as (s' & -> & Hl & Hb). simpl.
  rewrite Hl, Hb. destruct c as [amount|amount]; simpl; unfold deposit, withdraw.
  - destruct (Z.leb_spec amount 0); lia.
  - destruct (Z.leb_spec amount 0); [lia|].
    destruct (Z.ltb_spec (balance s - amount) (- overdraft_limit s)); lia.
Qed.

(** On a well-formed account a call that returns appends one record, which
    holds the balance it left; a call that raises changes nothing. *)
Lemma call_history c s :
  well_formed s →
  well_formed (call c s).2
  ∧ match (call c s).1 with
    | Return b =>
        b = balance (call c s).2
        ∧ ∃ d, history (call c s).2 = history s ++ [d]
               ∧ d !! "resulting_balance" = Some (Num (balance (call c s).2))
    | Raise _ => (call c s).2 = s
    end.
Proof.
  intros Hwf. destruct c as [amount|amount]; simpl.
  - destruct (Z.leb_spec amount 0) as [Hle|Hgt].
    + by rewrite deposit_raises.
    + destruct (deposit_records amount s Hgt Hwf) as (s' & -> & Hb & _ & Hh & Hwf').
      simpl. split_and!; [done..|]. eexists. split; [exact Hh|]. by rewrite Hb.
  - destruct (Z.leb_spec amount 0) as [Hle|Hgt].
    + by rewrite withdraw_raises.
    + destruct (Z.ltb_spec (balance s - amount) (- overdraft_limit s)) as [Hlt|Hge].
      * by rewrite withdraw_overdraft.
      * destruct (withdraw_records amount s Hgt Hge Hwf)
          as (s' & -> & Hb & _ & Hh & Hwf').
        simpl. split_and!; [done..|]. eexists. split; [exact Hh|]. by rewrite Hb.
Qed.

(** ** Runs *)

Lemma run_cons c cs s :
  run (c :: cs) s = ((call c s).1 :: (run cs (call c s).2).1, (run cs (call c s).2).2).
Proof. simpl. destruct (call c s) as [r s']. simpl. by destruct (run cs s'). Qed.

Lemma run_stateless_cons limit c cs b :
  run_stateless limit (c :: cs) b
  = let r := call_stateless limit c b in
    let b' := match r with Return b' => b' | Raise _ => b end in
    (r :: (run_stateless limit cs b').1, (run_stateless limit cs b').2).
Proof. simpl. by destruct (run_stateless limit cs _). Qed.

Lemma run_app cs1 cs2 s :
  (run (cs1 ++ cs2) s).2 = (run cs2 (run cs1 s).2).2.
Proof.
  revert s. induction cs1 as [|c cs1 IH]; intros s; [done|].
  rewrite <- app_comm_cons, !run_cons. simpl. apply IH.
Qed.


Lemma run_well_formed cs s : well_formed s → well_formed (run cs s).2.
Proof.
  revert s. induction cs as [|c cs IH]; intros s Hwf; [done|].
  rewrite run_cons. simpl. apply IH. by apply call_history.
Qed.

Lemma run_agrees cs s :
  (run cs s).1 = (run_stateless (overdraft_limit s) cs (balance s)).1
  ∧ balance (run cs s).2 = (run_stateless (overdraft_limit s) cs (balance s)).2.
Proof.
  revert s. induction cs as [|c cs IH]; intros s; [done|].
  rewrite run_cons, run_stateless_cons. simpl.
  destruct (call_agrees c s) as (s' & -> & Hl & Hb). simpl.
  destruct (IH s') as [IH1 IH2]. rewrite Hl, Hb in IH1, IH2.
  by rewrite IH1, IH2.
Qed.

(** ** Accounts reached from a construction *)

Lemma init_inv initial_balance limit w s0 :
  BankAccount.__init__ initial_balance limit w = Return s0 →
  0 ≤ initial_balance
  ∧ balance s0 = initial_balance
  ∧ overdraft_limit s0 = Z.max 0 limit
  ∧ well_formed s0
  ∧ history s0
    = if initial_balance >? 0
      then [transaction "initial deposit" initial_balance
              (clock w (ticks w)) initial_balance]
      else [].
Proof.
  intros Hinit. destruct (Z.lt_ge_cases initial_balance 0) as [Hneg|Hpos].
  - by rewrite init_raises in Hinit.
  - destruct (init_returns initial_balance limit w Hpos) as (s & Hs & ?).
    rewrite Hs in Hinit. injection Hinit as <-. by split.
Qed.

Lemma reached_well_formed initial_balance limit w s0 cs :
  BankAccount.__init__ initial_balance limit w = Return s0 →
  well_formed (run cs s0).2.
Proof. intros (_ & _ & _ & Hwf & _)%init_inv. by apply run_well_formed. Qed.



Section binary64.
Import PrimFloat.


(** The three ways to a balance that is not a number: a [nan] amount, an
    infinite deposit followed by an infinite withdrawal ([inf - inf]), and
    a [nan] initial balance.  Each call returns, the [nan] amount is
    recorded, and [balance >= -overdraft_limit] is false at the end, while
    [balance < -overdraft_limit] is false too. *)
Example nan_balance :
  (∃ s0 s,
     Binary64.BankAccount.__init__ 100 200 Binary64.empty_world = Binary64.Return s0
     ∧ Binary64.run [Binary64.Deposit nan] s0 = ([Binary64.Return nan], s)
     ∧ Binary64.amounts s = [100; nan]
     ∧ (- Binary64.overdraft_limit s <=? Binary64.balance s) = false
     ∧ (Binary64.balance s <? - Binary64.overdraft_limit s) = false)%float
  ∧ (∃ s0 s,
       Binary64.BankAccount.__init__ 100 200 Binary64.empty_world = Binary64.Return s0
       ∧ Binary64.run [Binary64.Deposit infinity; Binary64.Withdraw infinity] s0
         = ([Binary64.Return infinity; Binary64.Return nan], s)
       ∧ (- Binary64.overdraft_limit s <=? Binary64.balance s) = false
       ∧ (Binary64.balance s <? - Binary64.overdraft_limit s) = false)%float
  ∧ (∃ s0,
       Binary64.BankAccount.__init__ nan 0 Binary64.empty_world = Binary64.Return s0
       ∧ Binary64.amounts s0 = []
       ∧ (- Binary64.overdraft_limit s0 <=? Binary64.balance s0) = false
       ∧ (Binary64.balance s0 <? - Binary64.overdraft_limit s0) = false)%float.
Proof.
  split_and!.
  - eexists _, _. split; [reflexivity|]. split; [vm_compute; reflexivity|].
    vm_compute. done.
  - eexists _, _. split; [reflexivity|]. split; [vm_compute; reflexivity|].
    vm_compute. done.
  - eexists. split; [reflexivity|]. vm_compute. done.
Qed.

(** What holds of the account over binary64 whatever the numbers are: a
    record changes nothing of the instance; no call changes the limit; and
    a [withdraw] that returns has subtracted the amount and leaves
    [balance < -overdraft_limit] false, which is its guard. *)
Lemma binary64_record_transaction_self ty amount s :
  Binary64.BankAccount.self (Binary64.BankAccount._record_transaction ty amount s).2
  = Binary64.BankAccount.self s
  ∧ (Binary64.BankAccount._record_transaction ty amount s).1 = Binary64.Return ().
Proof.
  unfold Binary64.BankAccount._record_transaction, Binary64.BankAccount.list_append,
    Binary64.BankAccount.in_world, Binary64.BankAccount.attr, mbind,
    Binary64.BankAccount.M_bind. simpl.
  by destruct (_ !! _) as [[]|].
Qed.

Lemma binary64_withdraw_guard amount s b s' :
  Binary64.BankAccount.withdraw amount s = (Binary64.Return b, s') →
  (amount <=? 0)%float = false
  ∧ Binary64.balance s' = (Binary64.balance s - amount)%float
  ∧ (Binary64.balance s' <? - Binary64.overdraft_limit s')%float = false.
Proof.
  unfold Binary64.BankAccount.withdraw.
  destruct (amount <=? 0)%float; [done|].
  unfold mbind, Binary64.BankAccount.M_bind, Binary64.BankAccount.attr at 1 2. simpl.
  destruct (_ <? _)%float eqn:Hg; [done|].
  unfold Binary64.BankAccount.set_balance. simpl.
  match goal with |- context [Binary64.BankAccount._record_transaction ?t ?a ?x] =>
    destruct (binary64_record_transaction_self t a x) as [Hs Hr];
    destruct (Binary64.BankAccount._record_transaction t a x) as [r x'] end.
  simpl in *. subst r. unfold Binary64.BankAccount.attr. intros [= <- <-].
  unfold Binary64.balance, Binary64.overdraft_limit. rewrite Hs. simpl. done.
Qed.

Lemma binary64_call_limit c s :
  Binary64.overdraft_limit (Binary64.call c s).2 = Binary64.overdraft_limit s.
Proof.
  destruct c as [amount|amount]; simpl;
    unfold Binary64.BankAccount.deposit, Binary64.BankAccount.withdraw;
    destruct (amount <=? 0)%float; try done;
    unfold mbind, Binary64.BankAccount.M_bind, Binary64.BankAccount.attr at 1 2; simpl;
    try (destruct (_ <? _)%float; [done|]);
    unfold Binary64.BankAccount.set_balance; simpl;
    match goal with |- context [Binary64.BankAccount._record_transaction ?t ?a ?x] =>
      destruct (binary64_record_transaction_self t a x) as [Hs Hr];
      destruct (Binary64.BankAccount._record_transaction t a x) as [r x'] end;
    simpl in *; subst r; unfold Binary64.BankAccount.attr; simpl;
    unfold Binary64.overdraft_limit; by rewrite Hs.
Qed.

Lemma binary64_run_limit cs s :
  Binary64.overdraft_limit (Binary64.run cs s).2 = Binary64.overdraft_limit s.
Proof.
  revert s. induction cs as [|c cs IH]; intros s; [done|]. simpl.
  pose proof (binary64_call_limit c s) as Hc.
  destruct (Binary64.call c s) as [r s1]. specialize (IH s1).
  destruct (Binary64.run cs s1) as [rs s2]. simpl in *. by rewrite IH.
Qed.

End binary64.

(** C6, as the code has it. An account created with balance
    [initial_balance] and limit [limit] gives, call by call, the results of
    the stateless functions run from [initial_balance] with the limit
    [max(0, limit)], and ends at the same balance; so with [limit] itself
    when [limit >= 0]. *)
Theorem C6_stateless_equivalence (initial_balance limit : Z) (w : World)
    (s0 : State) (cs : list Call) :
  BankAccount.__init__ initial_balance limit w = Return s0 →
  ((run cs s0).1 = (run_stateless (Z.max 0 limit) cs initial_balance).1
   ∧ balance (run cs s0).2 = (run_stateless (Z.max 0 limit) cs initial_balance).2)
  ∧ (0 ≤ limit →
     (run cs s0).1 = (run_stateless limit cs initial_balance).1
     ∧ balance (run cs s0).2 = (run_stateless limit cs initial_balance).2).
Proof.
  intros (_ & Hb & Hl & _)%init_inv.
  pose proof (run_agrees cs s0) as H. rewrite Hb, Hl in H.
  split; [done|]. intros Hpos. by rewrite Z.max_r in H.
Qed.

Lemma C6_stateless_equivalence_witness :
  ((run [Deposit 50; Withdraw 30; Withdraw 250; Withdraw 100] account_100_200).1
   = (run_stateless 200 [Deposit 50; Withdraw 30; Withdraw 250; Withdraw 100] 100).1
   ∧ balance (run [Deposit 50; Withdraw 30; Withdraw 250; Withdraw 100] account_100_200).2
     = (run_stateless 200 [Deposit 50; Withdraw 30; Withdraw 250; Withdraw 100] 100).2).
Proof.
  apply (C6_stateless_equivalence 100 200 empty_world account_100_200); [|lia].
  vm_compute. reflexivity.
Defined.

(** C6, as the claim states it, fails for a negative limit: the
    constructor stores 0 for the limit -50, so [withdraw(80)] on
    [BankAccount(100, -50)] returns 20, while [withdraw(100, 80, -50)]
    raises. *)
Lemma C6_counterexample :
  ¬ (∀ (initial_balance limit : Z) (w : World) (s0 : State)
       (cs : list Call),
       BankAccount.__init__ initial_balance limit w = Return s0 →
       (run cs s0).1 = (run_stateless limit cs initial_balance).1
       ∧ balance (run cs s0).2 = (run_stateless limit cs initial_balance).2).
Proof.
  intros H.
  destruct (init_returns 100 (-50) empty_world) as (s0 & Hs0 & _); [lia|].
  destruct (H 100 (-50) empty_world s0 [Withdraw 80] Hs0) as [_ Hbal].
  revert Hbal. vm_compute in Hs0. injection Hs0 as <-. vm_compute. discriminate.
Qed.

(** ** The history of a run *)

Lemma omap_length_is_Some {A B} (f : A → option B) (l : list A) :
  Forall (λ x, is_Some (f x)) l → length (omap f l) = length l.
Proof.
  induction 1 as [|x xs [y Hy] _ IH]; csimpl; [done|]. rewrite Hy. simpl. by rewrite IH.
Qed.

Lemma transaction_count_spec s :
  well_formed s →
  BankAccount.transaction_count s = (Return (length (history s)), s).
Proof.
  intros (items & Hh & Hall)%well_formed_items. destruct Hall as [Hall ->].
  rewrite omap_length_is_Some by done.
  unfold BankAccount.transaction_count, mbind, BankAccount.M_bind, BankAccount.attr,
    BankAccount.len, BankAccount.in_world, list_items; simpl.
  rewrite Hh. by destruct s as [? []].
Qed.

Lemma call_last_record c s :
  well_formed s → last_record_current s → last_record_current (call c s).2.
Proof.
  intros Hwf Hlast. destruct (call_history c s Hwf) as [_ Hc].
  destruct (call c s).1.
  - destruct Hc as (_ & d & Hh & Hd). intros d'. rewrite Hh, last_snoc. by intros [= <-].
  - by rewrite Hc.
Qed.

Lemma run_last_record cs s :
  well_formed s → last_record_current s → last_record_current (run cs s).2.
Proof.
  revert s. induction cs as [|c cs IH]; intros s Hwf Hlast; [done|].
  rewrite run_cons. simpl. apply IH; [by apply call_history|by apply call_last_record].
Qed.

Lemma balances_after_cons c cs s :
  balances_after (c :: cs) s
  = if succeeded (call c s).1
    then balance (call c s).2 :: balances_after cs (call c s).2
    else balances_after cs (call c s).2.
Proof. simpl. by destruct (call c s). Qed.

Lemma get_transaction_history_history s :
  well_formed s →
  history (BankAccount.get_transaction_history s).2 = history s.
Proof.
  intros (items & Hh & Hall). destruct s as [a [h ck tk]]; simpl in *.
  assert (Hr : h !! fresh (dom h) = None) by apply fresh_loc_None.
  unfold history; simpl.
  rewrite (list_value_insert_fresh _ _ _ _ items) by done.
  unfold list_value, list_items. by rewrite Hh.
Qed.

(** A run appends one record for each successful call, in order, each
    with the balance its call left, and touches no earlier record. *)
Lemma run_history cs s :
  well_formed s →
  ∃ ds, history (run cs s).2 = history s ++ ds
        ∧ (.!! "resulting_balance") <$> ds = Some ∘ Num <$> balances_after cs s
        ∧ length ds = successes (run cs s).1.
Proof.
  revert s. induction cs as [|c cs IH]; intros s Hwf.
  - exists []. by rewrite app_nil_r.
  - rewrite run_cons, balances_after_cons. unfold successes. simpl.
    destruct (call_history c s Hwf) as [Hwf' Hc].
    destruct (IH _ Hwf') as (ds & Hh & Hrb & Hlen).
    destruct (call c s).1; simpl.
    + destruct Hc as (_ & d & Hd & Hdb). exists (d :: ds).
      rewrite Hh, Hd, <- app_assoc. split_and!; [done| |].
      * rewrite fmap_cons, Hrb, Hdb. done.
      * simpl. by rewrite Hlen.
    + exists ds. rewrite Hc in *. by split_and!.
Qed.

(** C7. On every account reached from a successful construction by
    [deposit] and [withdraw] calls: whatever calls follow, the history so
    far stays as it is, at the front of the later history, and the queries
    [get_balance()] and [get_transaction_history()] leave it as it is; its
    length is 1 (for an initial balance > 0, else 0) plus the number of
    successful calls; [transaction_count()] returns that length and changes
    nothing; the resulting_balance of the entries are, in order, the
    balances the account had right after the construction (for an initial
    balance > 0) and after each successful call; and the last entry holds
    the current balance. *)
Theorem C7_history_log (initial_balance limit : Z) (w : World)
    (s0 : State) (cs : list Call) :
  BankAccount.__init__ initial_balance limit w = Return s0 →
  (∀ cs', history (run cs s0).2 `prefix_of` history (run (cs ++ cs') s0).2)
  ∧ history (BankAccount.get_balance (run cs s0).2).2 = history (run cs s0).2
  ∧ history (BankAccount.get_transaction_history (run cs s0).2).2
    = history (run cs s0).2
  ∧ length (history (run cs s0).2)
    = ((if initial_balance >? 0 then 1 else 0) + successes (run cs s0).1)%nat
  ∧ BankAccount.transaction_count (run cs s0).2
    = (Return (length (history (run cs s0).2)), (run cs s0).2)
  ∧ (.!! "resulting_balance") <$> history (run cs s0).2
    = Some ∘ Num <$> ((if initial_balance >? 0 then [initial_balance] else [])
                      ++ balances_after cs s0)
  ∧ (∀ d, last (history (run cs s0).2) = Some d →
          d !! "resulting_balance" = Some (Num (balance (run cs s0).2))).
Proof.
  intros (Hpos & Hb & Hl & Hwf & Hh0)%init_inv.
  pose proof (run_well_formed cs s0 Hwf) as Hwf'.
  destruct (run_history cs s0 Hwf) as (ds & Hh & Hrb & Hlen).
  split_and!.
  - intros cs'. rewrite run_app.
    destruct (run_history cs' _ Hwf') as (ds' & -> & _). by exists ds'.
  - done.
  - by apply get_transaction_history_history.
  - rewrite Hh, length_app, Hh0, Hlen. by destruct (initial_balance >? 0).
  - by apply transaction_count_spec.
  - rewrite Hh, !fmap_app, Hrb, Hh0. by destruct (initial_balance >? 0).
  - apply run_last_record; [done|].
    intros d. rewrite Hh0. destruct (initial_balance >? 0); [|done].
    intros [= <-]. by rewrite Hb.
Qed.

Lemma C7_history_log_witness :
  let cs := [Deposit 50; Withdraw 500; Withdraw 30] in
  length (history (run cs account_100_200).2) = 3%nat
  ∧ BankAccount.transaction_count (run cs account_100_200).2
    = (Return 3%nat, (run cs account_100_200).2)
  ∧ (.!! "resulting_balance") <$> history (run cs account_100_200).2
    = [Some (Num 100); Some (Num 150); Some (Num 120)].
Proof.
  intros cs.
  destruct (C7_history_log 100 200 empty_world account_100_200 cs)
    as (_ & _ & _ & Hlen & Hcount & Hrb & _).
  { vm_compute. reflexivity. }
  split_and!.
  - exact Hlen.
  - rewrite Hcount, Hlen. reflexivity.
  - exact Hrb.
Defined.

(** ** The queries *)

Lemma get_balance_spec s : BankAccount.get_balance s = (Return (balance s), s).
Proof. reflexivity. Qed.

Lemma get_transaction_history_eq s :
  BankAccount.get_transaction_history s
  = (Return (fresh (dom (heap_of s))),
     store (fresh (dom (heap_of s)))
       (PyList (list_items (heap_of s)
                  (own_list s))) s).
Proof. by destruct s as [? []]. Qed.

(** Storing a list at an address that was free, or that holds a copy made
    at a free address, does not change what the account sees. *)
Lemma store_fresh_list r items s :
  well_formed s → heap_of s !! r = None →
  balance (store r (PyList items) s) = balance s
  ∧ overdraft_limit (store r (PyList items) s) = overdraft_limit s
  ∧ history (store r (PyList items) s) = history s
  ∧ well_formed (store r (PyList items) s).
Proof.
  intros (its & Hh & Hall & Hhist)%well_formed_items Hr. split_and!; [done..| |].
  - rewrite Hhist. unfold history, store; simpl.
    by rewrite (list_value_insert_fresh _ _ _ _ its).
  - exists its. unfold store; simpl. split.
    + rewrite lookup_insert_ne; [done|]. intros ->. congruence.
    + eapply Forall_impl; [exact Hall|]. intros x Hx. simpl.
      by rewrite dict_at_insert_fresh.
Qed.

(** So does changing the items of a list object that is not the account's
    own. *)
Lemma store_foreign_list r items s :
  well_formed s → foreign_list r s →
  balance (store r (PyList items) s) = balance s
  ∧ history (store r (PyList items) s) = history s
  ∧ well_formed (store r (PyList items) s)
  ∧ foreign_list r (store r (PyList items) s).
Proof.
  intros (its & Hh & Hall & Hhist)%well_formed_items [Hne [its0 Hr]].
  assert (Hd : ∀ x, dict_at (<[r := PyList items]> (heap_of s)) x
                    = dict_at (heap_of s) x).
  { intros x. by apply (dict_at_insert_list _ _ its0). }
  split_and!; [done| | |].
  - rewrite Hhist. unfold history, list_value, store; simpl.
    rewrite list_items_insert_ne by done. unfold list_items. rewrite Hh.
    apply omap_dict_at_ext, Forall_forall. intros x _. apply Hd.
  - exists its. unfold store; simpl. split.
    + by rewrite lookup_insert_ne.
    + eapply Forall_impl; [exact Hall|]. intros x Hx. simpl. by rewrite Hd.
  - split; [done|]. exists items. unfold store; simpl. apply lookup_insert_eq.
Qed.

(** A call changes the account's own list and allocates one record: the
    account keeps its list, and every other object stays as it is. *)
Lemma call_state c s :
  well_formed s →
  (call c s).2 = s
  ∨ ∃ ty amount items b,
      heap_of s !! own_list s
        = Some (PyList items)
      ∧ (call c s).2 = recorded ty amount items (with_balance b s).
Proof.
  intros (items & Hh & _). destruct c as [amount|amount]; simpl.
  - destruct (Z.leb_spec amount 0) as [Hle|Hgt].
    + left. by rewrite deposit_raises.
    + right. exists "deposit", amount, items, (balance s + amount).
      split; [done|]. rewrite deposit_unfold by done.
      by rewrite (record_transaction_eq _ _ items).
  - destruct (Z.leb_spec amount 0) as [Hle|Hgt].
    + left. by rewrite withdraw_raises.
    + destruct (Z.ltb_spec (balance s - amount) (- overdraft_limit s)) as [Hlt|Hge].
      * left. by rewrite withdraw_overdraft.
      * right. exists "withdrawal", amount, items, (balance s - amount).
        split; [done|]. rewrite withdraw_unfold by done.
        by rewrite (record_transaction_eq _ _ items).
Qed.

Lemma call_foreign_list c s r :
  well_formed s → foreign_list r s → foreign_list r (call c s).2.
Proof.
  intros Hwf Hf.
  destruct (call_state c s Hwf) as [->|(ty & amount & items & b & Hh & ->)]; [done|].
  destruct Hf as [Hne [its Hr]].
  split; [done|]. exists its. unfold recorded; simpl.
  rewrite !lookup_insert_ne; [done| |done].
  intros E. pose proof (fresh_loc_None (heap_of s)) as Hn.
  rewrite E in Hn. congruence.
Qed.

Lemma run_foreign_list cs s r :
  well_formed s → foreign_list r s → foreign_list r (run cs s).2.
Proof.
  revert s. induction cs as [|c cs IH]; intros s Hwf Hf; [done|].
  rewrite run_cons. simpl. apply IH; [by apply call_history|by apply call_foreign_list].
Qed.

(** C8, as the code has it. On a well-formed account
    [get_transaction_history()] returns a new list object whose items are
    the account's records, in order (the same record objects: the copy is
    shallow), and leaves balance, limit and history as they were; whatever
    the caller makes of the items of the returned list, then or after any
    further [deposit] and [withdraw] calls, balance and history stay as
    they were; [get_balance()] returns the balance and changes nothing; and
    a second [get_transaction_history()] returns another list of equal
    value, again without effect on balance and history. *)
Theorem C8_history_copy (s : State) :
  well_formed s →
  ∃ r s1,
    BankAccount.get_transaction_history s = (Return r, s1)
    ∧ r ≠ own_list s
    ∧ list_items (heap_of s1) r
      = list_items (heap_of s)
          (own_list s)
    ∧ list_value (heap_of s1) r = history s
    ∧ BankAccount.self s1 = BankAccount.self s
    ∧ history s1 = history s
    ∧ (∀ cs s2, list_mutation r (run cs s1).2 s2 →
                balance s2 = balance (run cs s1).2
                ∧ history s2 = history (run cs s1).2)
    ∧ BankAccount.get_balance s = (Return (balance s), s)
    ∧ ∃ r' s1',
        BankAccount.get_transaction_history s1 = (Return r', s1')
        ∧ r' ≠ r
        ∧ list_value (heap_of s1') r' = history s
        ∧ list_value (heap_of s1') r = history s
        ∧ balance s1' = balance s
        ∧ history s1' = history s.
Proof.
  intros Hwf.
  destruct (well_formed_items s Hwf) as (its & Hh & Hall & Hhist).
  set (h := heap_of s) in *.
  set (r := fresh (dom h)).
  assert (Hr : h !! r = None) by apply fresh_loc_None.
  assert (Hits : list_items h (own_list s) = its).
  { unfold list_items. by rewrite Hh. }
  assert (Hne : r ≠ own_list s).
  { intros E. rewrite <- E in Hh. congruence. }
  destruct (store_fresh_list r its s Hwf Hr) as (Hb1 & _ & Hh1 & Hwf1).
  exists r, (store r (PyList its) s).
  split; [by rewrite get_transaction_history_eq; fold h r; rewrite Hits|].
  split; [done|].
  split; [by unfold store; simpl; rewrite list_items_insert_eq|].
  split; [by unfold store; simpl; fold h; rewrite list_value_insert_eq|].
  split; [done|]. split; [done|].
  set (s1 := store r (PyList its) s) in *.
  assert (Hf1 : foreign_list r s1).
  { split; [exact Hne|]. exists its. apply lookup_insert_eq. }
  split.
  { intros cs s2 [items].
    destruct (store_foreign_list r items (run cs s1).2) as (? & ? & _);
      [by apply run_well_formed|by apply run_foreign_list|done]. }
  split; [done|].
  set (h1 := heap_of s1).
  set (r' := fresh (dom h1)).
  assert (Hr' : h1 !! r' = None) by apply fresh_loc_None.
  assert (Hr1 : h1 !! r = Some (PyList its)) by apply lookup_insert_eq.
  assert (Hall1 : Forall (λ x, is_Some (dict_at h1 x)) its).
  { eapply Forall_impl; [exact Hall|]. intros x Hx. unfold h1, s1, store; simpl.
    fold h. by rewrite dict_at_insert_fresh. }
  assert (Hval1 : omap (dict_at h1) its = history s).
  { rewrite Hhist. apply omap_dict_at_ext.
    eapply Forall_impl; [exact Hall|]. intros x Hx. unfold h1, s1, store; simpl.
    fold h. by apply dict_at_insert_fresh. }
  destruct (well_formed_items s1 Hwf1) as (its1 & Hh1' & _ & _).
  assert (its1 = its) as ->.
  { unfold s1, store in Hh1'; simpl in Hh1'. fold h in Hh1'.
    rewrite lookup_insert_ne in Hh1' by done.
    congruence. }
  destruct (store_fresh_list r' its s1 Hwf1 Hr') as (Hb2 & _ & Hh2 & _).
  exists r', (store r' (PyList its) s1).
  split.
  { rewrite get_transaction_history_eq. fold h1 r'. do 2 f_equal.
    unfold list_items, h1. by rewrite Hh1'. }
  split; [intros E; rewrite E in Hr'; congruence|].
  split; [by unfold store; simpl; fold h1; rewrite list_value_insert_eq|].
  split; [by unfold store; simpl; fold h1;
          rewrite (list_value_insert_fresh _ _ _ _ its)|].
  split; [by rewrite Hb2|by rewrite Hh2].
Qed.

Lemma C8_history_copy_witness :
  well_formed account_100_200
  ∧ ∃ r s1,
      BankAccount.get_transaction_history account_100_200 = (Return r, s1)
      ∧ list_value (heap_of s1) r = history account_100_200
      ∧ history s1 = history account_100_200
      ∧ (∀ s2, list_mutation r s1 s2 →
               balance s2 = balance s1 ∧ history s2 = history s1).
Proof.
  assert (Hwf : well_formed account_100_200).
  { exists [2%positive]. split; [reflexivity|].
    apply Forall_singleton. eexists. reflexivity. }
  split; [exact Hwf|].
  destruct (C8_history_copy account_100_200 Hwf)
    as (r & s1 & Hcall & _ & _ & Hval & _ & Hhist & Hmut & _).
  exists r, s1. split_and!; [done..|].
  intros s2 Hs2. apply (Hmut [] s2 Hs2).
Defined.

(** C8, as the claim states it, fails: the list returned by
    [get_transaction_history()] refers to the account's own record objects,
    so [acct.get_transaction_history()[0]["amount"] = 999] on
    [BankAccount(100, 200)] changes the first entry of the account's
    history. *)
Lemma C8_counterexample :
  ¬ (∀ (s : State) (r : loc) (s1 s2 : State),
       well_formed s →
       BankAccount.get_transaction_history s = (Return r, s1) →
       caller_mutation r s1 s2 →
       balance s2 = balance s ∧ history s2 = history s).
Proof.
  intros H.
  pose (s1 := (BankAccount.get_transaction_history account_100_200).2).
  pose (d := <["amount" := Num 999]> (transaction "initial deposit" 100 0 100)).
  destruct (H account_100_200 3%positive s1 (store 2%positive (PyDict d) s1))
    as [_ Hh].
  - exact well_formed_100_200.
  - vm_compute. reflexivity.
  - apply mutate_record. vm_compute. apply list_elem_of_here.
  - apply (f_equal (λ h, h !! 0%nat ≫= (.!! "amount"))) in Hh.
    vm_compute in Hh. discriminate Hh.
Qed.

(** The same run spelled out: the account's first entry reads 100 before
    and 999 after the caller's assignment through the returned list. *)
Example shared_record_mutation :
  let s1 := (BankAccount.get_transaction_history account_100_200).2 in
  let d := <["amount" := Num 999]> (transaction "initial deposit" 100 0 100) in
  (BankAccount.get_transaction_history account_100_200).1 = Return 3%positive
  ∧ list_items (heap_of s1) 3%positive = [2%positive]
  ∧ history s1 !! 0%nat ≫= (.!! "amount") = Some (Num 100)
  ∧ history (store 2%positive (PyDict d) s1) !! 0%nat ≫= (.!! "amount")
    = Some (Num 999).
Proof. vm_compute. done. Qed.

(** The run with a negative limit spelled out: the account stores the
    limit 0 and lets the balance go to 20; the stateless [withdraw], given
    -50 itself, asks for [20 >= 50] and raises. *)
Example negative_limit_runs :
  ∃ s0, BankAccount.__init__ 100 (-50) empty_world = Return s0
        ∧ overdraft_limit s0 = 0
        ∧ (run [Withdraw 80] s0).1 = [Return 20]
        ∧ balance (run [Withdraw 80] s0).2 = 20
        ∧ run_stateless (-50) [Withdraw 80] 100
          = ([Raise (ValueError "Withdrawal would exceed overdraft limit of -50")], 100).
Proof. eexists. split; [vm_compute; reflexivity|]. vm_compute. done. Qed.

(** * Further properties of [src/bank_account.py] *)

(** ** What one call does, in full *)

Lemma call_effect c s :
  well_formed s →
  (succeeded (call c s).1 = false ∧ (call c s).2 = s)
  ∨ ∃ ty amount,
      (c = Deposit amount ∧ ty = "deposit" ∨ c = Withdraw amount ∧ ty = "withdrawal")
      ∧ 0 < amount
      ∧ (call c s).1 = Return (balance (call c s).2)
      ∧ balance (call c s).2
        = balance s + signed_amount (transaction ty amount 0 0)
      ∧ overdraft_limit (call c s).2 = overdraft_limit s
      ∧ history (call c s).2
        = history s ++ [transaction ty amount (reading s) (balance (call c s).2)]
      ∧ well_formed (call c s).2
      ∧ clock (BankAccount.world (call c s).2) = clock (BankAccount.world s)
      ∧ ticks (BankAccount.world (call c s).2) = S (ticks (BankAccount.world s)).
Proof.
  intros Hwf. pose proof Hwf as (items & Hh & Hall).
  destruct c as [amount|amount]; simpl.
  - destruct (Z.leb_spec amount 0) as [Hle|Hgt].
    + left. by rewrite deposit_raises.
    + right. exists "deposit", amount. split; [by left|]. split; [done|].
      rewrite deposit_unfold by done.
      rewrite (record_transaction_eq _ _ items) by done. simpl.
      destruct (recorded_spec "deposit" amount items
                  (with_balance (balance s + amount) s) Hh Hall) as [Hhist Hwf'].
      split_and!; done.
  - destruct (Z.leb_spec amount 0) as [Hle|Hgt].
    + left. by rewrite withdraw_raises.
    + destruct (Z.ltb_spec (balance s - amount) (- overdraft_limit s)) as [Hlt|Hge].
      * left. by rewrite withdraw_overdraft.
      * right. exists "withdrawal", amount. split; [by right|]. split; [done|].
        rewrite withdraw_unfold by done.
        rewrite (record_transaction_eq _ _ items) by done. simpl.
        destruct (recorded_spec "withdrawal" amount items
                    (with_balance (balance s - amount) s) Hh Hall) as [Hhist Hwf'].
        split_and!; done.
Qed.

(** A property that holds after the construction and that every call keeps
    holds on every account reached. *)
Lemma reached_ind (P : State → Prop) initial_balance limit w s0 cs :
  BankAccount.__init__ initial_balance limit w = Return s0 →
  (well_formed s0 → P s0) →
  (∀ c s, well_formed s → P s → P (call c s).2) →
  P (run cs s0).2.
Proof.
  intros (_ & _ & _ & Hwf & _)%init_inv H0 Hstep.
  specialize (H0 Hwf). clear initial_balance limit w.
  revert s0 Hwf H0. induction cs as [|c cs IH]; intros s Hwf Hs; [done|].
  rewrite run_cons. simpl. apply IH; [by apply call_history|by apply Hstep].
Qed.

Lemma signed_amount_transaction ty amount timestamp resulting_balance :
  signed_amount (transaction ty amount timestamp resulting_balance)
  = if String.eqb ty "withdrawal" then - amount else amount.
Proof. reflexivity. Qed.

Lemma apply_record_transaction b ty amount timestamp resulting_balance :
  apply_record b (transaction ty amount timestamp resulting_balance)
  = if String.eqb ty "withdrawal" then b - amount else b + amount.
Proof. reflexivity. Qed.

Lemma replay_snoc b ds d : replay b (ds ++ [d]) = apply_record (replay b ds) d.
Proof. unfold replay. by rewrite foldl_app. Qed.

(** ** The shape of the history *)

(** X1. On every account reached from a construction, every entry of the
    history is a dict with exactly the keys type, amount, timestamp and
    resulting_balance.  The construction makes at most one entry, of type
    "initial deposit", for an amount with [amount > 0]; all later entries
    are of type "deposit" or "withdrawal", for an amount that passed the
    guard of the call: [amount <= 0] was false. *)
Theorem X1_history_records_shape (initial_balance limit : Z) (w : World)
    (s0 : State) (cs : list Call) :
  BankAccount.__init__ initial_balance limit w = Return s0 →
  (length (history s0) ≤ 1)%nat
  ∧ Forall (is_record ["initial deposit"] (λ amount, amount >? 0)) (history s0)
  ∧ ∃ ds, history (run cs s0).2 = history s0 ++ ds
          ∧ Forall (is_record ["deposit"; "withdrawal"]
                      (λ amount, negb (amount <=? 0))) ds.
Proof.
  intros Hinit. split_and!.
  - destruct (init_inv _ _ _ _ Hinit) as (_ & _ & _ & _ & ->).
    destruct (initial_balance >? 0); simpl; lia.
  - destruct (init_inv _ _ _ _ Hinit) as (Hpos & _ & _ & _ & ->).
    destruct (initial_balance >? 0) eqn:Hgt; [|constructor].
    apply Forall_singleton. eexists _, _, _, _. split; [reflexivity|].
    split; [apply list_elem_of_here|done].
  - apply (reached_ind
      (λ s, ∃ ds, history s = history s0 ++ ds
                  ∧ Forall (is_record ["deposit"; "withdrawal"]
                              (λ amount, negb (amount <=? 0))) ds)
      _ _ _ _ cs Hinit).
    + intros _. exists []. by rewrite app_nil_r.
    + intros c s Hwf (ds & Hh & Hds).
      destruct (call_effect c s Hwf)
        as [[_ ->]|(ty & amount & Hty & Hgt & _ & _ & _ & Hh' & _)]; [by exists ds|].
      exists (ds ++ [transaction ty amount (reading s) (balance (call c s).2)]).
      rewrite Hh', Hh, app_assoc. split; [done|].
      apply Forall_app. split; [done|]. apply Forall_singleton.
      eexists _, _, _, _. split; [reflexivity|]. split.
      * destruct Hty as [[_ ->]|[_ ->]]; [apply list_elem_of_here|].
        apply list_elem_of_further, list_elem_of_here.
      * apply negb_true_iff, Z.leb_gt, Hgt.
Qed.

Lemma X1_history_records_shape_witness :
  (length (history account_100_200) ≤ 1)%nat
  ∧ Forall (is_record ["initial deposit"] (λ amount, amount >? 0))
      (history account_100_200)
  ∧ ∃ ds, history (run [Deposit 50; Withdraw 500; Withdraw 30] account_100_200).2
          = history account_100_200 ++ ds
          ∧ Forall (is_record ["deposit"; "withdrawal"]
                      (λ amount, negb (amount <=? 0))) ds.
Proof.
  apply (X1_history_records_shape 100 200 empty_world). vm_compute. reflexivity.
Defined.

(** ** The history replays the balance *)

(** X2. The history replays the balance.  On every account reached from a
    construction, doing the operations of the entries made after the
    construction again, in order and from the initial balance, gives the
    balance of the account; and the resulting_balance of each of these
    entries is what the replay gives up to and including it. *)
Theorem X2_history_is_ledger (initial_balance limit : Z) (w : World)
    (s0 : State) (cs : list Call) :
  BankAccount.__init__ initial_balance limit w = Return s0 →
  let later := drop (length (history s0)) (history (run cs s0).2) in
  history (run cs s0).2 = history s0 ++ later
  ∧ balance (run cs s0).2 = replay initial_balance later
  ∧ ∀ k d, later !! k = Some d →
           d !! "resulting_balance"
           = Some (Num (replay initial_balance (take (S k) later))).
Proof.
  intros Hinit.
  assert (H : ∃ ds, history (run cs s0).2 = history s0 ++ ds
                    ∧ balance (run cs s0).2 = replay initial_balance ds
                    ∧ ∀ k d, ds !! k = Some d →
                             d !! "resulting_balance"
                             = Some (Num (replay initial_balance (take (S k) ds)))).
  { apply (reached_ind
      (λ s, ∃ ds, history s = history s0 ++ ds
                  ∧ balance s = replay initial_balance ds
                  ∧ ∀ k d, ds !! k = Some d →
                           d !! "resulting_balance"
                           = Some (Num (replay initial_balance (take (S k) ds))))
      _ _ _ _ cs Hinit).
    - intros _. destruct (init_inv _ _ _ _ Hinit) as (_ & Hb & _).
      exists []. by rewrite app_nil_r.
    - intros c s Hwf (ds & Hh & Hb & Hrb).
      destruct (call_effect c s Hwf)
        as [[_ ->]|(ty & amount & _ & _ & _ & Hb' & _ & Hh' & _)]; [by exists ds|].
      set (d' := transaction ty amount (reading s) (balance (call c s).2)) in *.
      assert (Hsum : balance (call c s).2 = replay initial_balance (ds ++ [d'])).
      { rewrite replay_snoc, <- Hb, Hb'. unfold d'.
        rewrite apply_record_transaction, signed_amount_transaction.
        destruct (String.eqb ty "withdrawal"); lia. }
      exists (ds ++ [d']). rewrite Hh', Hh, app_assoc.
      split_and!; [done..|]. intros k d Hd.
      destruct (decide (k < length ds)%nat) as [Hlt|Hge].
      + rewrite lookup_app_l in Hd by done.
        rewrite take_app_le by lia. by apply Hrb.
      + rewrite take_ge by (rewrite length_app; simpl; lia).
        rewrite lookup_app_r in Hd by lia.
        destruct (k - length ds)%nat; [|done].
        injection Hd as <-. by rewrite <- Hsum. }
  destruct H as (ds & Hh & Hb & Hrb). simpl.
  by rewrite Hh, drop_app_length.
Qed.

Lemma X2_history_is_ledger_witness :
  let s := (run [Deposit 50; Withdraw 500; Withdraw 30] account_100_200).2 in
  let later := drop (length (history account_100_200)) (history s) in
  history s = history account_100_200 ++ later
  ∧ balance s = replay 100 later
  ∧ ∀ k d, later !! k = Some d →
           d !! "resulting_balance" = Some (Num (replay 100 (take (S k) later))).
Proof.
  apply (X2_history_is_ledger 100 200 empty_world). vm_compute. reflexivity.
Defined.

(** ** Timestamps *)

Lemma init_clock initial_balance limit w s0 :
  BankAccount.__init__ initial_balance limit w = Return s0 →
  clock (BankAccount.world s0) = clock w
  ∧ ticks (BankAccount.world s0) = (ticks w + length (history s0))%nat.
Proof.
  intros Hinit. destruct (init_inv _ _ _ _ Hinit) as (Hpos & _ & _ & _ & Hh).
  rewrite Hh. clear Hh. unfold BankAccount.__init__ in Hinit.
  destruct (Z.ltb_spec initial_balance 0); [lia|]. unfold alloc in Hinit.
  destruct (initial_balance >? 0).
  - rewrite (record_transaction_eq _ _ []) in Hinit by apply lookup_insert_eq.
    injection Hinit as <-. simpl. split; [done|lia].
  - injection Hinit as <-. simpl. split; [done|lia].
Qed.

(** X3. The timestamps of the history are successive readings of the
    clock, one for each entry and none for a failed call: entry [k] of an
    account created when the clock had been read [ticks w] times holds
    reading [ticks w + k].  So with a clock that never goes back the
    timestamps never decrease along the history. *)
Theorem X3_history_timestamps (initial_balance limit : Z) (w : World)
    (s0 : State) (cs : list Call) :
  BankAccount.__init__ initial_balance limit w = Return s0 →
  (∀ k d, history (run cs s0).2 !! k = Some d →
          d !! "timestamp" = Some (Datetime (clock w (ticks w + k))))
  ∧ ((∀ i j, (i ≤ j)%nat → clock w i ≤ clock w j) →
     ∀ i j di dj,
       (i ≤ j)%nat →
       history (run cs s0).2 !! i = Some di →
       history (run cs s0).2 !! j = Some dj →
       ∃ ti tj, di !! "timestamp" = Some (Datetime ti)
                ∧ dj !! "timestamp" = Some (Datetime tj)
                ∧ ti ≤ tj).
Proof.
  intros Hinit.
  assert (Hk : ∀ k d, history (run cs s0).2 !! k = Some d →
                      d !! "timestamp" = Some (Datetime (clock w (ticks w + k)))).
  { apply (reached_ind
      (λ s, (clock (BankAccount.world s) = clock w
             ∧ ticks (BankAccount.world s) = (ticks w + length (history s))%nat)
            ∧ ∀ k d, history s !! k = Some d →
                     d !! "timestamp" = Some (Datetime (clock w (ticks w + k))))
      _ _ _ _ cs Hinit).
    - intros _. split; [by apply (init_clock initial_balance limit)|].
      destruct (init_inv _ _ _ _ Hinit) as (_ & _ & _ & _ & ->).
      destruct (initial_balance >? 0); [|done].
      intros [|k] d Hd; [|done]. injection Hd as <-. by rewrite Nat.add_0_r.
    - intros c s Hwf [[Hck Htk] Hts].
      destruct (call_effect c s Hwf)
        as [[_ ->]|(ty & amount & _ & _ & _ & _ & _ & Hh' & _ & Hck' & Htk')]; [done|].
      split.
      { rewrite Hck', Htk', Hh', length_app, Hck, Htk. simpl. split; [done|lia]. }
      intros k d. rewrite Hh'.
      destruct (decide (k < length (history s))%nat) as [Hlt|Hge].
      + rewrite lookup_app_l by done. apply Hts.
      + rewrite lookup_app_r by lia.
        destruct (k - length (history s))%nat eqn:Ek; [|done].
        intros [= <-]. unfold reading. rewrite Hck, Htk.
        replace k with (length (history s)) by lia. reflexivity. }
  split; [exact Hk|].
  intros Hmono i j di dj Hij Hi Hj.
  exists (clock w (ticks w + i)), (clock w (ticks w + j)).
  split_and!; [by apply Hk..|]. apply Hmono. lia.
Qed.

Lemma X3_history_timestamps_witness :
  let s := (run [Deposit 50; Withdraw 500; Withdraw 30] account_100_200).2 in
  ∃ d0 d2 t0 t2,
    history s !! 0%nat = Some d0 ∧ history s !! 2%nat = Some d2
    ∧ d0 !! "timestamp" = Some (Datetime t0)
    ∧ d2 !! "timestamp" = Some (Datetime t2)
    ∧ t0 ≤ t2.
Proof.
  intros s.
  destruct (X3_history_timestamps 100 200 empty_world account_100_200
              [Deposit 50; Withdraw 500; Withdraw 30]) as [_ H].
  { vm_compute. reflexivity. }
  assert (H0 : ∃ d0, history s !! 0%nat = Some d0) by (eexists; vm_compute; reflexivity).
  assert (H2 : ∃ d2, history s !! 2%nat = Some d2) by (eexists; vm_compute; reflexivity).
  destruct H0 as [d0 H0], H2 as [d2 H2].
  destruct (H (λ i j Hij, proj1 (Nat2Z.inj_le i j) Hij) 0%nat 2%nat d0 d2)
    as (t0 & t2 & Ht0 & Ht2 & Hle); [lia|exact H0|exact H2|].
  by exists d0, d2, t0, t2.
Defined.

(** ** The returned history is a snapshot *)

Lemma call_keeps_objects c s l o :
  well_formed s → l ≠ own_list s → heap_of s !! l = Some o →
  heap_of (call c s).2 !! l = Some o ∧ own_list (call c s).2 = own_list s.
Proof.
  intros Hwf Hne Hl.
  destruct (call_state c s Hwf) as [->|(ty & amount & items & b & Hh & ->)]; [done|].
  split; [|done]. unfold recorded; simpl.
  rewrite !lookup_insert_ne; [done| |done].
  intros E. pose proof (fresh_loc_None (heap_of s)) as Hn.
  rewrite E in Hn. congruence.
Qed.

Lemma run_keeps_objects cs s l o :
  well_formed s → l ≠ own_list s → heap_of s !! l = Some o →
  heap_of (run cs s).2 !! l = Some o.
Proof.
  revert s. induction cs as [|c cs IH]; intros s Hwf Hne Hl; [done|].
  rewrite run_cons. simpl.
  destruct (call_keeps_objects c s l o Hwf Hne Hl) as [Hl' Hown].
  apply IH; [by apply call_history|by rewrite Hown|done].
Qed.

Lemma history_copy_facts s :
  well_formed s →
  ∃ r s1 its,
    BankAccount.get_transaction_history s = (Return r, s1)
    ∧ r ≠ own_list s1
    ∧ list_items (heap_of s) (own_list s) = its
    ∧ heap_of s1 !! r = Some (PyList its)
    ∧ Forall (λ x, ∃ d, heap_of s !! x = Some (PyDict d)
                        ∧ heap_of s1 !! x = Some (PyDict d)
                        ∧ x ≠ own_list s1) its
    ∧ well_formed s1
    ∧ history s1 = history s.
Proof.
  intros Hwf. destruct (well_formed_items s Hwf) as (its & Hh & Hall & Hhist).
  set (r := fresh (dom (heap_of s))).
  assert (Hr : heap_of s !! r = None) by apply fresh_loc_None.
  assert (Hits : list_items (heap_of s) (own_list s) = its).
  { unfold list_items. by rewrite Hh. }
  destruct (store_fresh_list r its s Hwf Hr) as (_ & _ & Hh1 & Hwf1).
  exists r, (store r (PyList its) s), its.
  split; [by rewrite get_transaction_history_eq; fold r; rewrite Hits|].
  split; [simpl; intros E; rewrite <- E in Hh; congruence|].
  split; [done|]. split; [apply lookup_insert_eq|].
  split; [|done].
  eapply Forall_impl; [exact Hall|]. intros x [d Hd]. simpl in *.
  unfold dict_at in Hd. destruct (heap_of s !! x) as [[?|d']|] eqn:Hx; try done.
  injection Hd as ->. exists d. split; [done|]. split.
  - rewrite lookup_insert_ne; [done|]. intros E. rewrite E in Hr. congruence.
  - intros E. rewrite E in Hx. congruence.
Qed.

(** X6. The list [get_transaction_history()] returns is a snapshot: after
    any further [deposit] and [withdraw] calls on the account it still has
    the items and the value it had when it was returned, while the
    account's own history has grown past it. *)
Theorem X6_history_copy_is_snapshot (s : State) (cs : list Call) :
  well_formed s →
  ∃ r s1,
    BankAccount.get_transaction_history s = (Return r, s1)
    ∧ list_items (heap_of (run cs s1).2) r = list_items (heap_of s) (own_list s)
    ∧ list_value (heap_of (run cs s1).2) r = history s
    ∧ history s `prefix_of` history (run cs s1).2
    ∧ length (history (run cs s1).2)
      = (length (history s) + successes (run cs s1).1)%nat.
Proof.
  intros Hwf.
  destruct (history_copy_facts s Hwf) as (r & s1 & its & Hcall & Hne & Hits & Hr1 & Hd1 & Hwf1 & Hh1).
  exists r, s1. split; [done|].
  assert (Hr2 : heap_of (run cs s1).2 !! r = Some (PyList its)).
  { by apply run_keeps_objects. }
  assert (Hd2 : Forall (λ x, dict_at (heap_of (run cs s1).2) x = dict_at (heap_of s) x) its).
  { rewrite Forall_forall in Hd1 |- *. intros x Hx.
    destruct (Hd1 x Hx) as (d & Hxs & Hx1 & Hxne). unfold dict_at at 1.
    rewrite (run_keeps_objects cs s1 x (PyDict d)) by done.
    unfold dict_at. by rewrite Hxs. }
  destruct (run_history cs s1 Hwf1) as (ds & Hh2 & _ & Hlen).
  split_and!.
  - unfold list_items at 1. by rewrite Hr2, Hits.
  - unfold list_value, list_items at 1. rewrite Hr2.
    rewrite (omap_dict_at_ext (heap_of s)) by done.
    unfold history, list_value. by rewrite Hits.
  - exists ds. by rewrite Hh2, Hh1.
  - by rewrite Hh2, length_app, Hh1, Hlen.
Qed.

Lemma X6_history_copy_is_snapshot_witness :
  ∃ r s1,
    BankAccount.get_transaction_history account_100_200 = (Return r, s1)
    ∧ list_value (heap_of (run [Deposit 50; Withdraw 30] s1).2) r
      = history account_100_200
    ∧ history account_100_200 `prefix_of` history (run [Deposit 50; Withdraw 30] s1).2.
Proof.
  destruct (X6_history_copy_is_snapshot account_100_200 [Deposit 50; Withdraw 30])
    as (r & s1 & Hcall & _ & Hval & Hpre & _).
  { exists [2%positive]. split; [reflexivity|].
    apply Forall_singleton. eexists. reflexivity. }
  by exists r, s1.
Defined.

(** * The shell of [src/app.py] *)

Module Sh := BankAccountSimulator.

Ltac shell_unfold :=
  unfold Sh.create_account, Sh.make_deposit, Sh.make_withdrawal, Sh.check_balance,
    Sh.switch_mode, Sh.exit_program, Sh.display_menu, Sh._check_account_exists,
    Sh.try_except_ValueError, Sh.new_account, Sh.on_account, Sh.pure, Sh.float,
    Sh.input, Sh.print, Sh.set_account, Sh.set_balance, Sh.set_overdraft_limit,
    Sh.set_current_mode, Sh.set_self, Sh.attr, Sh.throw,
    mbind, Sh.IO_bind, mret, Sh.IO_ret, Sh.is_stateful in *.

Ltac shell_cases :=
  repeat (simpl;
    match goal with
    | |- context [BankAccount.deposit ?z ?s] =>
        destruct (BankAccount.deposit z s) as [[?|[?]] ?]
    | |- context [BankAccount.withdraw ?z ?s] =>
        destruct (BankAccount.withdraw z s) as [[?|[?]] ?]
    | |- context [deposit ?b ?z] => unfold deposit
    | |- context [withdraw ?b ?z ?l] => unfold withdraw
    | |- context [if ?c then _ else _] => destruct c
    end); simpl.

Lemma is_stateful_true sh :
  Sh.is_stateful sh = true ↔ Sh.current_mode sh = "stateful".
Proof. unfold Sh.is_stateful. apply String.eqb_eq. Qed.

Lemma is_stateful_false sh :
  Sh.is_stateful sh = false ↔ Sh.current_mode sh ≠ "stateful".
Proof. unfold Sh.is_stateful. apply String.eqb_neq. Qed.

(** ** Switching modes *)

(** X7. [switch_mode] in stateful mode takes the balance of the account
    (when there is one) into the shell's own balance and sets the mode to
    stateless; it keeps the account object, and it does not take the
    account's overdraft limit: the shell's own limit stays what it was. *)
Theorem X7_switch_to_stateless (sys : Sh.Sys) :
  in_stateful_mode sys →
  let sh := Sh.self sys in
  Sh.switch_mode sys
  = (Ok (),
     Sh.mkSys
       (Sh.mk "stateless" (Sh.account sh)
          (match Sh.account sh with
           | Some a => BankAccount._balance a
           | None => Sh.balance sh
           end)
          (Sh.overdraft_limit sh))
       (Sh.world sys) (Sh.stdin sys)
       (Sh.stdout sys ++ ["Switched to Functional (Stateless) mode." +:+ nl])).
Proof.
  intros Hm%is_stateful_true. destruct sys as [[m acct b l] w inp out].
  shell_unfold; simpl in *. rewrite Hm. by destruct acct as [[]|].
Qed.

(** X8. [switch_mode] in stateless mode makes a new account from the
    shell's own balance and limit, with no [try] around the constructor: a
    negative balance lets the constructor's [ValueError] out of the handler
    and leaves everything as it was, the mode included; otherwise the new
    account has the shell's balance, the limit [max(0, limit)] and a
    history of at most the one "initial deposit" record, whatever the
    history of the account held before. *)
Theorem X8_switch_to_stateful (sys : Sh.Sys) :
  ¬ in_stateful_mode sys →
  let sh := Sh.self sys in
  (Sh.balance sh < 0 →
   Sh.switch_mode sys
   = (Throw (Exn (ValueError "Initial balance cannot be negative")), sys))
  ∧ (0 ≤ Sh.balance sh →
     ∃ a w',
       Sh.switch_mode sys
       = (Ok (),
          Sh.mkSys (Sh.mk "stateful" (Some a) (Sh.balance sh) (Sh.overdraft_limit sh))
            w' (Sh.stdin sys)
            (Sh.stdout sys ++ ["Switched to OOP (Stateful) mode." +:+ nl]))
       ∧ balance (BankAccount.mkState a w') = Sh.balance sh
       ∧ overdraft_limit (BankAccount.mkState a w') = Z.max 0 (Sh.overdraft_limit sh)
       ∧ well_formed (BankAccount.mkState a w')
       ∧ history (BankAccount.mkState a w')
         = if Sh.balance sh >? 0
           then [transaction "initial deposit" (Sh.balance sh)
                   (clock (Sh.world sys) (ticks (Sh.world sys))) (Sh.balance sh)]
           else []).
Proof.
  intros Hm%is_stateful_false. destruct sys as [[m acct b l] w inp out].
  simpl in *. split; intros Hb.
  - shell_unfold; simpl in *. rewrite Hm. simpl. by rewrite init_raises.
  - destruct (init_returns b l w Hb) as ([a w'] & Hinit & Hbal & Hlim & Hwf & Hh).
    exists a, w'. split; [|done].
    shell_unfold; simpl in *. rewrite Hm. simpl. by rewrite Hinit.
Qed.

(** X9. Switching to stateless mode and back replaces the account: with a
    balance >= 0 the new account has the old balance, but its limit is
    [max(0, limit)] of the shell's own limit, not the old account's, and
    its history is at most one "initial deposit" record; with a balance
    < 0 the switch back raises and the shell stays in stateless mode. *)
Theorem X9_switch_there_and_back (sys : Sh.Sys) (a : BankAccount.t) :
  in_stateful_mode sys → Sh.account (Sh.self sys) = Some a →
  let sys1 := (Sh.switch_mode sys).2 in
  (0 ≤ BankAccount._balance a →
   ∃ a' w',
     (Sh.switch_mode sys1).1 = Ok ()
     ∧ in_stateful_mode (Sh.switch_mode sys1).2
     ∧ account_state (Sh.switch_mode sys1).2 = Some (BankAccount.mkState a' w')
     ∧ balance (BankAccount.mkState a' w') = BankAccount._balance a
     ∧ overdraft_limit (BankAccount.mkState a' w')
       = Z.max 0 (Sh.overdraft_limit (Sh.self sys))
     ∧ (length (history (BankAccount.mkState a' w')) ≤ 1)%nat
     ∧ Forall (is_transaction ["initial deposit"]) (history (BankAccount.mkState a' w')))
  ∧ (BankAccount._balance a < 0 →
     Sh.switch_mode sys1
     = (Throw (Exn (ValueError "Initial balance cannot be negative")), sys1)
     ∧ ¬ in_stateful_mode sys1).
Proof.
  intros Hm%is_stateful_true Ha sys1.
  destruct sys as [[m acct b l] w inp out]. simpl in *. subst acct.
  assert (Hsys1 : sys1 = Sh.mkSys
            (Sh.mk "stateless" (Some a) (BankAccount._balance a) l) w inp
            (out ++ ["Switched to Functional (Stateless) mode." +:+ nl])).
  { unfold sys1. shell_unfold; simpl in *. rewrite Hm. by destruct a. }
  rewrite Hsys1. clear sys1 Hsys1. split; intros Hb.
  - destruct (init_returns (BankAccount._balance a) l w Hb)
      as ([a' w'] & Hinit & Hbal & Hlim & Hwf & Hh).
    exists a', w'.
    assert (Hsw : Sh.switch_mode
              (Sh.mkSys (Sh.mk "stateless" (Some a) (BankAccount._balance a) l) w inp
                 (out ++ ["Switched to Functional (Stateless) mode." +:+ nl]))
            = (Ok (),
               Sh.mkSys (Sh.mk "stateful" (Some a') (BankAccount._balance a) l) w' inp
                 ((out ++ ["Switched to Functional (Stateless) mode." +:+ nl])
                  ++ ["Switched to OOP (Stateful) mode." +:+ nl]))).
    { shell_unfold; simpl. by rewrite Hinit. }
    rewrite Hsw. split_and!; try done.
    + rewrite Hh. destruct (_ >? _); simpl; lia.
    + rewrite Hh. destruct (Z.gtb_spec (BankAccount._balance a) 0); [|constructor].
      apply Forall_singleton. eexists _, _, _, _. split; [reflexivity|].
      split; [apply list_elem_of_here|lia].
  - split; [|done]. shell_unfold; simpl. by rewrite init_raises.
Qed.

(** ** Deposits and withdrawals through the shell *)

Lemma deposit_raise_inv amount s e s' :
  BankAccount.deposit amount s = (Raise e, s') →
  s' = s ∧ amount ≤ 0 ∧ e = ValueError "Deposit amount must be positive".
Proof.
  destruct (Z.le_gt_cases amount 0) as [Hle|Hgt].
  - rewrite deposit_raises by done. by intros [= <- <-].
  - destruct (deposit_returns amount s) as [w ->]; [lia|]. done.
Qed.

Lemma withdraw_raise_inv amount s e s' :
  BankAccount.withdraw amount s = (Raise e, s') →
  s' = s
  ∧ (amount ≤ 0 ∧ e = ValueError "Withdrawal amount must be positive"
     ∨ 0 < amount ∧ balance s - amount < - overdraft_limit s
       ∧ e = ValueError ("Withdrawal would exceed overdraft limit of "
                         +:+ pretty (overdraft_limit s))).
Proof.
  destruct (Z.le_gt_cases amount 0) as [Hle|Hgt].
  - rewrite withdraw_raises by done. intros [= <- <-]. split; [done|by left].
  - destruct (Z.lt_ge_cases (balance s - amount) (- overdraft_limit s)) as [Hlt|Hge].
    + rewrite withdraw_overdraft by (done || lia). intros [= <- <-].
      split; [done|]. right. split_and!; [lia|done..].
    + destruct (withdraw_returns amount s) as [w ->]; [lia|done|]. done.
Qed.

(** X10. [make_deposit] and [make_withdrawal] let no [ValueError] out: they
    return, or raise [EOFError] when there is no line left to read.  In
    stateful mode without an account they read nothing and print the hint
    to create one. *)
Theorem X10_amount_handlers_outcome (sys : Sh.Sys) :
  ((Sh.make_deposit sys).1 = Ok ()
   ∨ (Sh.make_deposit sys).1 = Throw EOFError ∧ Sh.stdin sys = [])
  ∧ ((Sh.make_withdrawal sys).1 = Ok ()
     ∨ (Sh.make_withdrawal sys).1 = Throw EOFError ∧ Sh.stdin sys = [])
  ∧ (in_stateful_mode sys → Sh.account (Sh.self sys) = None →
     let sys' := Sh.mkSys (Sh.self sys) (Sh.world sys) (Sh.stdin sys)
                   (Sh.stdout sys
                    ++ ["Please create an account first (Option 1)." +:+ nl]) in
     Sh.make_deposit sys = (Ok (), sys') ∧ Sh.make_withdrawal sys = (Ok (), sys')).
Proof.
  destruct sys as [[m acct b l] w inp out]. simpl.
  split_and!.
  - shell_unfold; simpl.
    destruct (String.eqb m "stateful") eqn:Hm, acct as [a|], inp as [|[t [z|[e]]] rest];
      simpl; try rewrite Hm; shell_cases; eauto.
  - shell_unfold; simpl.
    destruct (String.eqb m "stateful") eqn:Hm, acct as [a|], inp as [|[t [z|[e]]] rest];
      simpl; try rewrite Hm; shell_cases; eauto.
  - intros Hm%is_stateful_true ->.
    shell_unfold; simpl in *. rewrite Hm. simpl. done.
Qed.

(** X11. A line that is not a number, a non-positive amount, and a
    withdrawal beyond the limit in force are reported as
    ["Error: <message>"] and change nothing: the shell's attributes, the
    account and the heap are as before; one line of input is used.  The
    message of the withdrawal beyond the limit is
    ["Withdrawal would exceed overdraft limit of "] followed by the limit
    as Python prints it, a text the statement leaves open. *)
Theorem X11_rejected_amount_changes_nothing (sh : Sh.t) (w : World)
    (line : Line) (rest : list Line) (out : list string) :
  (Sh.current_mode sh = "stateful" → is_Some (Sh.account sh)) →
  let sys := Sh.mkSys sh w (line :: rest) out in
  let rejected prompt msg :=
    (Ok (), Sh.mkSys sh w rest ((out ++ [prompt]) ++ [("Error: " +:+ msg) +:+ nl])) in
  (∀ msg, as_float line = Raise (ValueError msg) →
     Sh.make_deposit sys = rejected "Enter deposit amount: $" msg
     ∧ Sh.make_withdrawal sys = rejected "Enter withdrawal amount: $" msg)
  ∧ (∀ amount, as_float line = Return amount → amount ≤ 0 →
       Sh.make_deposit sys
       = rejected "Enter deposit amount: $" "Deposit amount must be positive"
       ∧ Sh.make_withdrawal sys
         = rejected "Enter withdrawal amount: $" "Withdrawal amount must be positive")
  ∧ (∀ amount, as_float line = Return amount → 0 < amount →
       current_balance sh - amount < - current_limit sh →
       ∃ limit_text,
         Sh.make_withdrawal sys
         = rejected "Enter withdrawal amount: $"
             ("Withdrawal would exceed overdraft limit of " +:+ limit_text)).
Proof.
  intros Hacct. destruct sh as [m acct b l]. simpl in *.
  unfold current_balance, current_limit. shell_unfold. simpl.
  destruct (String.eqb m "stateful") eqn:Hm.
  - destruct (Hacct (proj1 (String.eqb_eq _ _) Hm)) as [a ->]. simpl. split_and!.
    + intros msg ->. simpl. by rewrite ?Hm.
    + intros amount -> Hle. simpl. rewrite ?Hm. simpl.
      by rewrite deposit_raises, withdraw_raises.
    + intros amount -> Hgt Hlt. simpl. rewrite ?Hm. simpl.
      rewrite withdraw_overdraft by done. eexists. by destruct a.
  - simpl. split_and!.
    + intros msg ->. simpl. by rewrite ?Hm.
    + intros amount -> Hle. simpl. rewrite ?Hm. simpl. unfold deposit, withdraw.
      by destruct (Z.leb_spec amount 0); [|lia].
    + intros amount -> Hgt Hlt. simpl. rewrite ?Hm. simpl. unfold withdraw.
      destruct (Z.leb_spec amount 0); [lia|]. eexists.
      by destruct (Z.ltb_spec (b - amount) (- l)); [|lia].
Qed.

(** X12. An accepted deposit or withdrawal changes the balance in force by
    exactly the amount and reports it; it keeps the mode and the limit in
    force.  In stateful mode it leaves the shell's own balance and limit
    alone; in stateless mode it leaves the account and the heap alone. *)
Theorem X12_accepted_amount (sh : Sh.t) (w : World)
    (line : Line) (rest : list Line) (out : list string) (amount : Z) :
  (Sh.current_mode sh = "stateful" → is_Some (Sh.account sh)) →
  as_float line = Return amount → 0 < amount →
  let sys := Sh.mkSys sh w (line :: rest) out in
  let accepted sys' (delta : Z) prompt report :=
    Sh.stdin sys' = rest
    ∧ Sh.stdout sys'
      = (out ++ [prompt])
          ++ [(report +:+ format_2f (current_balance sh + delta)) +:+ nl]
    ∧ current_balance (Sh.self sys') = current_balance sh + delta
    ∧ current_limit (Sh.self sys') = current_limit sh
    ∧ Sh.current_mode (Sh.self sys') = Sh.current_mode sh
    ∧ Sh.balance (Sh.self sys') = (if Sh.is_stateful sh then Sh.balance sh
                                   else Sh.balance sh + delta)
    ∧ Sh.overdraft_limit (Sh.self sys') = Sh.overdraft_limit sh
    ∧ (Sh.is_stateful sh = false →
       Sh.account (Sh.self sys') = Sh.account sh ∧ Sh.world sys' = w) in
  ((Sh.make_deposit sys).1 = Ok ()
   ∧ accepted (Sh.make_deposit sys).2 amount
       "Enter deposit amount: $" "Deposit successful. New balance: $")
  ∧ (- current_limit sh ≤ current_balance sh - amount →
     (Sh.make_withdrawal sys).1 = Ok ()
     ∧ accepted (Sh.make_withdrawal sys).2 (- amount)
         "Enter withdrawal amount: $" "Withdrawal successful. New balance: $").
Proof.
  intros Hacct Hline Hgt. destruct sh as [m acct b l]. simpl in *.
  unfold current_balance, current_limit. shell_unfold. simpl.
  destruct (String.eqb m "stateful") eqn:Hm.
  - destruct (Hacct (proj1 (String.eqb_eq _ _) Hm)) as [a ->]. simpl.
    rewrite Hline. simpl. rewrite ?Hm. simpl. split.
    + destruct (deposit_returns amount (BankAccount.mkState a w) Hgt) as [w' ->].
      simpl. rewrite ?Hm. by split_and!.
    + intros Hge.
      destruct (withdraw_returns amount (BankAccount.mkState a w) Hgt) as [w' ->];
        [done|].
      simpl. rewrite ?Hm. by split_and!.
  - simpl. rewrite Hline. simpl. rewrite ?Hm. simpl. unfold deposit, withdraw.
    destruct (Z.leb_spec amount 0); [lia|]. simpl. rewrite ?Hm. split.
    + by split_and!.
    + intros Hge. destruct (Z.ltb_spec (b - amount) (- l)); [lia|].
      simpl. rewrite ?Hm. by split_and!.
Qed.

(** ** Creating an account through the shell *)

(** X13. [create_account] reads the balance, then the limit.  A first line
    that is not a number is reported and the second prompt never shown.  In
    stateless mode the two numbers become the shell's balance and limit as
    they are, negative ones too, and the account object is left alone.  In
    stateful mode a negative balance is reported and the account held
    before is kept; otherwise the account is replaced by a new one with
    that balance and the limit [max(0, limit)], and the shell's own balance
    and limit are left alone. *)
Theorem X13_create_account (sh : Sh.t) (w : World) (line1 line2 : Line)
    (rest : list Line) (out : list string) :
  let p1 := "Enter initial balance: $" in
  let p2 := "Enter overdraft limit (0 for none): $" in
  (∀ msg, as_float line1 = Raise (ValueError msg) →
     Sh.create_account (Sh.mkSys sh w (line1 :: rest) out)
     = (Ok (), Sh.mkSys sh w rest ((out ++ [p1]) ++ [("Error: " +:+ msg) +:+ nl])))
  ∧ (∀ b0 l0, as_float line1 = Return b0 → as_float line2 = Return l0 →
       let sys := Sh.mkSys sh w (line1 :: line2 :: rest) out in
       let created := ("Account created with balance: $" +:+ format_2f b0) +:+ nl in
       (Sh.current_mode sh ≠ "stateful" →
        Sh.create_account sys
        = (Ok (),
           Sh.mkSys (Sh.mk (Sh.current_mode sh) (Sh.account sh) b0 l0) w rest
             (((out ++ [p1]) ++ [p2]) ++ [created])))
       ∧ (Sh.current_mode sh = "stateful" → b0 < 0 →
          Sh.create_account sys
          = (Ok (),
             Sh.mkSys sh w rest
               (((out ++ [p1]) ++ [p2])
                ++ [("Error: " +:+ "Initial balance cannot be negative") +:+ nl])))
       ∧ (Sh.current_mode sh = "stateful" → 0 ≤ b0 →
          ∃ a w',
            Sh.create_account sys
            = (Ok (),
               Sh.mkSys (Sh.mk (Sh.current_mode sh) (Some a) (Sh.balance sh)
                           (Sh.overdraft_limit sh))
                 w' rest (((out ++ [p1]) ++ [p2]) ++ [created]))
            ∧ balance (BankAccount.mkState a w') = b0
            ∧ overdraft_limit (BankAccount.mkState a w') = Z.max 0 l0
            ∧ well_formed (BankAccount.mkState a w')
            ∧ (length (history (BankAccount.mkState a w')) ≤ 1)%nat)).
Proof.
  destruct sh as [m acct b l]. simpl. split.
  - intros msg Hl1. shell_unfold; simpl. rewrite Hl1. done.
  - intros b0 l0 Hl1 Hl2. split_and!.
    + intros Hm%String.eqb_neq. shell_unfold; simpl.
      rewrite Hl1; simpl. rewrite Hl2; simpl. rewrite Hm. done.
    + intros Hm%String.eqb_eq Hneg. shell_unfold; simpl.
      rewrite Hl1; simpl. rewrite Hl2; simpl. rewrite Hm. simpl.
      by rewrite init_raises.
    + intros Hm Hpos.
      destruct (init_returns b0 l0 w Hpos) as ([a w'] & Hinit & Hb & Hl & Hwf & Hh).
      exists a, w'. split; [|split_and!; try done].
      * apply String.eqb_eq in Hm. shell_unfold; simpl.
        rewrite Hl1; simpl. rewrite Hl2; simpl. rewrite Hm. simpl. rewrite Hinit.
        simpl. apply String.eqb_eq in Hm. by rewrite Hm.
      * rewrite Hh. destruct (_ >? _); simpl; lia.
Qed.

(** ** What the shell keeps true of its account *)

Lemma call_account_ok c s : account_ok s → account_ok (call c s).2.
Proof.
  intros (Hwf & Hb & Hl & Hrec).
  pose proof (call_bound c s Hb) as Hb'.
  destruct (call_effect c s Hwf)
    as [[_ Hs]|(ty & amount & Hty & Hgt & _ & _ & Hl' & Hh' & Hwf' & _)].
  - rewrite Hs. by split_and!.
  - split_and!; [done|done|by rewrite Hl'|].
    rewrite Hh'. apply Forall_app. split; [done|]. apply Forall_singleton.
    eexists _, _, _, _. split; [reflexivity|]. split; [|done].
    destruct Hty as [[_ ->]|[_ ->]].
    + apply list_elem_of_further, list_elem_of_here.
    + do 2 apply list_elem_of_further. apply list_elem_of_here.
Qed.

Lemma init_account_ok initial_balance limit w s :
  BankAccount.__init__ initial_balance limit w = Return s → account_ok s.
Proof.
  intros (Hpos & Hb & Hl & Hwf & Hh)%init_inv.
  split_and!; [done|lia|lia|]. rewrite Hh.
  destruct (Z.gtb_spec initial_balance 0); [|constructor].
  apply Forall_singleton. eexists _, _, _, _. split; [reflexivity|].
  split; [apply list_elem_of_here|lia].
Qed.

Lemma history_copy_account_ok s :
  account_ok s → account_ok (BankAccount.get_transaction_history s).2.
Proof.
  intros (Hwf & Hb & Hl & Hrec). rewrite get_transaction_history_eq. simpl.
  destruct (store_fresh_list (fresh (dom (heap_of s)))
              (list_items (heap_of s) (own_list s)) s Hwf)
    as (Hb' & Hl' & Hh' & Hwf'); [apply fresh_loc_None|].
  split_and!; [done|by rewrite Hl', Hb'|by rewrite Hl'|by rewrite Hh'].
Qed.

(** The items of the history of a well-kept account are transaction
    records. *)
Lemma account_ok_items s :
  account_ok s →
  Forall (λ x, ∃ d, dict_at (heap_of s) x = Some d
                    ∧ is_transaction ["initial deposit"; "deposit"; "withdrawal"] d)
    (list_items (heap_of s) (own_list s)).
Proof.
  intros (Hwf & _ & _ & Hrec).
  destruct (well_formed_items s Hwf) as (items & Hh & Hall & Hhist).
  unfold list_items. rewrite Hh. rewrite Hhist in Hrec. clear Hh Hhist.
  induction Hall as [|x items [d Hd] _ IH]; [constructor|].
  csimpl in Hrec. rewrite Hd in Hrec. apply Forall_cons in Hrec as [Hd' Hrec].
  constructor; [by exists d|by apply IH].
Qed.

(** ** Viewing the history *)

Lemma transaction_fields ty amount timestamp resulting_balance :
  let d := transaction ty amount timestamp resulting_balance in
  d !! "type" = Some (Str ty)
  ∧ d !! "amount" = Some (Num amount)
  ∧ d !! "timestamp" = Some (Datetime timestamp)
  ∧ d !! "resulting_balance" = Some (Num resulting_balance).
Proof. by split_and!. Qed.

Lemma print_transactions_ok strftime items :
  ∀ i sys,
    Forall (λ x, ∃ d, dict_at (heap (Sh.world sys)) x = Some d
                      ∧ is_transaction ["initial deposit"; "deposit"; "withdrawal"] d)
      items →
    ∃ lines,
      Sh.print_transactions strftime i items sys
      = (Ok (), Sh.mkSys (Sh.self sys) (Sh.world sys) (Sh.stdin sys)
                  (Sh.stdout sys ++ lines))
      ∧ length lines = (6 * length items)%nat.
Proof.
  induction items as [|x items IH]; intros i sys Hall.
  - exists []. simpl. rewrite app_nil_r. by destruct sys.
  - apply Forall_cons in Hall as [(d & Hd & (ty & a & t & rb & -> & _)) Hall].
    destruct sys as [sh w inp out]. simpl in Hd, Hall.
    cbn [Sh.print_transactions].
    unfold mbind, Sh.IO_bind, Sh.dict_of, Sh.print, Sh.getitem, Sh.as_str, Sh.as_2f,
      Sh.as_date, mret, Sh.IO_ret. simpl. rewrite Hd.
    destruct (transaction_fields ty a t rb) as (-> & -> & -> & ->). simpl.
    match goal with
    | |- context [Sh.print_transactions strftime (S i) items ?sys'] =>
        destruct (IH (S i) sys' Hall) as (lines & -> & Hlen)
    end.
    simpl. eexists (_ :: _ :: _ :: _ :: _ :: _ :: lines). split.
    + do 2 f_equal. rewrite <- !app_assoc. simpl. reflexivity.
    + simpl. lia.
Qed.

Lemma view_transaction_history_stateful (strftime : string → datetime → string)
    (sys : Sh.Sys) (s : State) :
  in_stateful_mode sys → account_state sys = Some s → account_ok s →
  ∃ sys' s' lines,
    Sh.view_transaction_history strftime sys = (Ok (), sys')
    ∧ Sh.stdin sys' = Sh.stdin sys
    ∧ Sh.self sys' = Sh.self sys
    ∧ account_state sys' = Some s'
    ∧ account_ok s'
    ∧ balance s' = balance s
    ∧ overdraft_limit s' = overdraft_limit s
    ∧ history s' = history s
    ∧ Sh.stdout sys' = Sh.stdout sys ++ lines
    ∧ (history s = [] → lines = ["No transactions recorded yet." +:+ nl])
    ∧ (history s ≠ [] →
       length lines = (2 + 6 * length (history s))%nat
       ∧ last lines
         = Some (("Total transactions: " +:+ pretty (length (history s))) +:+ nl)).
Proof.
  destruct sys as [[m acct b l] w inp out].
  intros Hm%is_stateful_true Hs Hok. unfold account_state in Hs. simpl in *.
  destruct acct as [a|]; [|done]. injection Hs as <-.
  pose proof (history_copy_account_ok _ Hok) as Hok'.
  pose proof (account_ok_items _ Hok) as Hitems.
  destruct Hok as (Hwf & Hb & Hl & Hrec).
  destruct (well_formed_items _ Hwf) as (items & Hh & Hall & Hhist).
  assert (Hlen : length (history (BankAccount.mkState a w)) = length items).
  { rewrite Hhist. by apply omap_length_is_Some. }
  rewrite get_transaction_history_eq in Hok'. simpl in *.
  set (r := fresh (dom (heap w))) in *.
  assert (Hr : heap w !! r = None) by apply fresh_loc_None.
  unfold list_items in Hitems, Hok'. rewrite Hh in Hitems, Hok'.
  destruct (store_fresh_list r items (BankAccount.mkState a w) Hwf Hr)
    as (Hb' & Hl' & Hh' & _).
  set (w' := mkWorld (<[r := PyList items]> (heap w)) (clock w) (ticks w)).
  unfold Sh.view_transaction_history. shell_unfold; simpl in *. rewrite Hm. simpl.
  rewrite ?Hm. simpl. fold r.
  rewrite !list_items_insert_eq. unfold list_items. rewrite Hh. fold w'.
  destruct items as [|x items'].
  - exists (Sh.mkSys (Sh.mk m (Some a) b l) w' inp
              (out ++ ["No transactions recorded yet." +:+ nl])),
           (BankAccount.mkState a w'), ["No transactions recorded yet." +:+ nl].
    simpl. by split_and!.
  - set (items := x :: items') in *.
    assert (Hitems' : Forall (λ x, ∃ d, dict_at (heap w') x = Some d
                ∧ is_transaction ["initial deposit"; "deposit"; "withdrawal"] d)
              items).
    { eapply Forall_impl; [exact Hitems|]. intros y (d & Hd & Hty). exists d.
      split; [|done]. simpl. rewrite dict_at_insert_fresh; [done..|]. by exists d. }
    destruct (print_transactions_ok strftime items 1
                (Sh.mkSys (Sh.mk m (Some a) b l) w' inp
                   (out ++ [(nl +:+ "===== Transaction History =====") +:+ nl]))
                Hitems') as (lines & Hpt & Hlines).
    cbv beta iota. simpl Sh.self. simpl Sh.world. simpl Sh.stdin. simpl Sh.stdout.
    rewrite Hpt.
    eexists _, (BankAccount.mkState a w'),
      ([(nl +:+ "===== Transaction History =====") +:+ nl] ++ lines
       ++ [("Total transactions: " +:+ pretty (length items)) +:+ nl]).
    split; [reflexivity|]. simpl Sh.self. simpl Sh.world. simpl Sh.stdin.
    simpl Sh.stdout.
    split_and!; try done.
    + by rewrite <- !app_assoc.
    + intros Hnil. rewrite Hnil in Hlen. done.
    + intros _. rewrite Hlen. split.
      * rewrite length_app, length_app, Hlines. simpl. lia.
      * by rewrite app_assoc, last_snoc.
Qed.

(** X14. [view_transaction_history] outside stateful mode prints one
    notice and does nothing else.  In stateful mode, on an account the
    shell keeps, it never raises; it reads no input and changes neither
    the shell's attributes nor the account's balance, limit and history;
    for an empty history it prints one line, otherwise a heading, six
    lines for each entry and the total, which is the number of entries. *)
Theorem X14_view_transaction_history (strftime : string → datetime → string)
    (sys : Sh.Sys) :
  (¬ in_stateful_mode sys →
   Sh.view_transaction_history strftime sys
   = (Ok (),
      Sh.mkSys (Sh.self sys) (Sh.world sys) (Sh.stdin sys)
        (Sh.stdout sys
         ++ ["Transaction history is only available in stateful (OOP) mode." +:+ nl])))
  ∧ (in_stateful_mode sys →
     ∀ s, account_state sys = Some s → account_ok s →
     ∃ sys' s' lines,
       Sh.view_transaction_history strftime sys = (Ok (), sys')
       ∧ Sh.stdin sys' = Sh.stdin sys
       ∧ Sh.self sys' = Sh.self sys
       ∧ account_state sys' = Some s'
       ∧ account_ok s'
       ∧ balance s' = balance s
       ∧ overdraft_limit s' = overdraft_limit s
       ∧ history s' = history s
       ∧ Sh.stdout sys' = Sh.stdout sys ++ lines
       ∧ (history s = [] → lines = ["No transactions recorded yet." +:+ nl])
       ∧ (history s ≠ [] →
          length lines = (2 + 6 * length (history s))%nat
          ∧ last lines
            = Some (("Total transactions: " +:+ pretty (length (history s))) +:+ nl))).
Proof.
  split.
  - destruct sys as [[m acct b l] w inp out].
    intros Hm%is_stateful_false. unfold Sh.view_transaction_history.
    shell_unfold; simpl in *. by rewrite Hm.
  - intros Hm s Hs Hok. by apply view_transaction_history_stateful.
Qed.

(** ** The loop of [run] *)

Lemma sys_ok_same sys sys' :
  sys_ok sys →
  Sh.account (Sh.self sys') = Sh.account (Sh.self sys) → Sh.world sys' = Sh.world sys →
  sys_ok sys'.
Proof.
  intros Hok Ha Hw s. unfold account_state. rewrite Ha, Hw. apply Hok.
Qed.

Lemma sys_ok_account sh w inp out a :
  sys_ok (Sh.mkSys sh w inp out) → Sh.account sh = Some a →
  account_ok (BankAccount.mkState a w).
Proof. intros Hok Ha. apply Hok. unfold account_state. simpl. by rewrite Ha. Qed.

Lemma sys_ok_new sh w inp out a :
  account_ok (BankAccount.mkState a w) → Sh.account sh = Some a →
  sys_ok (Sh.mkSys sh w inp out).
Proof.
  intros Hok Ha s. unfold account_state. simpl. rewrite Ha. simpl. by intros [= <-].
Qed.

Lemma display_menu_ok : handler_ok Sh.display_menu.
Proof.
  intros [[m acct b l] w inp out] Hok. shell_unfold; simpl.
  destruct (String.eqb m "stateful"), acct as [[]|]; simpl;
    (split_and!; [by eapply sys_ok_same|done|done]).
Qed.

Lemma print_ok text : handler_ok (Sh.print text).
Proof.
  intros [[m acct b l] w inp out] Hok. shell_unfold; simpl.
  split_and!; [by eapply sys_ok_same|done|done].
Qed.

Lemma exit_program_ok : handler_ok Sh.exit_program.
Proof.
  intros [[m acct b l] w inp out] Hok. shell_unfold; simpl.
  split_and!; [by eapply sys_ok_same|done|].
  intros e [= <-]. right. by left.
Qed.

Lemma check_balance_ok : handler_ok Sh.check_balance.
Proof.
  intros [[m acct b l] w inp out] Hok. shell_unfold; simpl.
  destruct (String.eqb m "stateful") eqn:Hm, acct as [[]|]; simpl; rewrite ?Hm; simpl;
    (split_and!; [by eapply sys_ok_same|done|done]).
Qed.

Lemma switch_mode_ok : handler_ok Sh.switch_mode.
Proof.
  intros [[m acct b l] w inp out] Hok. shell_unfold; simpl.
  destruct (String.eqb m "stateful") eqn:Hm; simpl.
  - destruct acct as [[]|]; simpl; (split_and!; [by eapply sys_ok_same|done|done]).
  - destruct (BankAccount.__init__ b l w) as [[a w']|e] eqn:Hinit; simpl.
    + split_and!; [|done|done].
      eapply sys_ok_new; [|reflexivity]. by eapply init_account_ok.
    + split_and!; [done|done|]. intros e' [= <-].
      destruct (Z.lt_ge_cases b 0) as [Hneg|Hpos].
      * rewrite init_raises in Hinit by done. injection Hinit as <-.
        right. by right.
      * destruct (init_returns b l w Hpos) as (s & Hs & _). congruence.
Qed.

Lemma create_account_ok : handler_ok Sh.create_account.
Proof.
  intros [[m acct b l] w inp out] Hok. shell_unfold; simpl.
  destruct inp as [|[t1 [b0|[e1]]] [|[t2 [l0|[e2]]] rest]]; simpl;
    try (split_and!; [by eapply sys_ok_same|simpl; lia|];
         intros e [= <-]; by left).
  destruct (String.eqb m "stateful") eqn:Hm; simpl.
  - destruct (BankAccount.__init__ b0 l0 w) as [[a w']|[e]] eqn:Hinit; simpl.
    + split_and!; [|simpl; lia|done].
      eapply sys_ok_new; [|reflexivity]. by eapply init_account_ok.
    + split_and!; [by eapply sys_ok_same|simpl; lia|done].
  - split_and!; [by eapply sys_ok_same|simpl; lia|done].
Qed.

Lemma make_deposit_ok : handler_ok Sh.make_deposit.
Proof.
  intros [[m acct b l] w inp out] Hok. shell_unfold; simpl.
  destruct (String.eqb m "stateful") eqn:Hm, acct as [a|]; simpl.
  - destruct inp as [|[t [z|[e]]] rest]; simpl; rewrite ?Hm; simpl;
      try (split_and!; [by eapply sys_ok_same|simpl; lia|];
           intros e' [= <-]; by left).
    pose proof (call_account_ok (Deposit z) _ (sys_ok_account _ _ _ _ a Hok eq_refl))
      as Hok'. simpl in Hok'.
    destruct (BankAccount.deposit z _) as [[nb|[e]] [a' w']]; simpl in *;
      (split_and!; [by eapply sys_ok_new|lia|done]).
  - split_and!; [by eapply sys_ok_same|done|done].
  - destruct inp as [|[t [z|[e]]] rest]; simpl; rewrite ?Hm; shell_cases;
      try (split_and!; [by eapply sys_ok_same|simpl; lia|];
           intros e' [= <-]; by left).
  - destruct inp as [|[t [z|[e]]] rest]; simpl; rewrite ?Hm; shell_cases;
      try (split_and!; [by eapply sys_ok_same|simpl; lia|];
           intros e' [= <-]; by left).
Qed.

Lemma make_withdrawal_ok : handler_ok Sh.make_withdrawal.
Proof.
  intros [[m acct b l] w inp out] Hok. shell_unfold; simpl.
  destruct (String.eqb m "stateful") eqn:Hm, acct as [a|]; simpl.
  - destruct inp as [|[t [z|[e]]] rest]; simpl; rewrite ?Hm; simpl;
      try (split_and!; [by eapply sys_ok_same|simpl; lia|];
           intros e' [= <-]; by left).
    pose proof (call_account_ok (Withdraw z) _ (sys_ok_account _ _ _ _ a Hok eq_refl))
      as Hok'. simpl in Hok'.
    destruct (BankAccount.withdraw z _) as [[nb|[e]] [a' w']]; simpl in *;
      (split_and!; [by eapply sys_ok_new|lia|done]).
  - split_and!; [by eapply sys_ok_same|done|done].
  - destruct inp as [|[t [z|[e]]] rest]; simpl; rewrite ?Hm; shell_cases;
      try (split_and!; [by eapply sys_ok_same|simpl; lia|];
           intros e' [= <-]; by left).
  - destruct inp as [|[t [z|[e]]] rest]; simpl; rewrite ?Hm; shell_cases;
      try (split_and!; [by eapply sys_ok_same|simpl; lia|];
           intros e' [= <-]; by left).
Qed.

Lemma view_transaction_history_ok strftime :
  handler_ok (Sh.view_transaction_history strftime).
Proof.
  intros sys Hok.
  destruct (String.eqb (Sh.current_mode (Sh.self sys)) "stateful") eqn:Hm.
  - apply String.eqb_eq in Hm.
    destruct (Sh.account (Sh.self sys)) as [a|] eqn:Ha.
    + destruct (view_transaction_history_stateful strftime sys
                  (BankAccount.mkState a (Sh.world sys)))
        as (sys' & s' & lines & -> & Hin & _ & Hs' & Hok' & _).
      * done.
      * unfold account_state. by rewrite Ha.
      * apply Hok. unfold account_state. by rewrite Ha.
      * simpl. split_and!; [|by rewrite Hin|done].
        intros s Hs. rewrite Hs' in Hs. by injection Hs as <-.
    + destruct sys as [[m acct b l] w inp out]. simpl in *. subst.
      unfold Sh.view_transaction_history. shell_unfold; simpl.
      split_and!; [by eapply sys_ok_same|done|done].
  - destruct sys as [[m acct b l] w inp out]. simpl in *.
    unfold Sh.view_transaction_history. shell_unfold; simpl. rewrite Hm. simpl.
    split_and!; [by eapply sys_ok_same|done|done].
Qed.

Lemma menu_options_ok strftime choice h :
  Sh.menu_options strftime !! choice = Some h → handler_ok h.
Proof.
  unfold Sh.menu_options. intros Hh.
  repeat (apply lookup_insert_Some in Hh as [[_ <-]|[_ Hh]];
          [eauto using create_account_ok, make_deposit_ok, make_withdrawal_ok,
             check_balance_ok, view_transaction_history_ok, switch_mode_ok|]).
  apply lookup_singleton_Some in Hh as [_ <-]. apply exit_program_ok.
Qed.

Lemma turn_eq strftime sys :
  Sh.turn strftime sys
  = match Sh.display_menu sys with
    | (Ok _, sys1) =>
        match Sh.input (nl +:+ "Enter your choice (1-7): ") sys1 with
        | (Ok choice, sys2) =>
            match Sh.menu_options strftime !! text choice with
            | Some action => action
            | None => Sh.print "Invalid choice. Please try again."
            end sys2
        | (Throw e, sys2) => (Throw e, sys2)
        end
    | (Throw e, sys1) => (Throw e, sys1)
    end.
Proof. reflexivity. Qed.

(** A turn keeps the account well; it raises only what ends [run]; and
    when it returns it has used at least one line of input. *)
Lemma turn_ok strftime sys :
  sys_ok sys →
  sys_ok (Sh.turn strftime sys).2
  ∧ (∀ e, (Sh.turn strftime sys).1 = Throw e → ends_run e)
  ∧ (∀ u, (Sh.turn strftime sys).1 = Ok u →
          (length (Sh.stdin (Sh.turn strftime sys).2) < length (Sh.stdin sys))%nat).
Proof.
  intros Hok. rewrite turn_eq.
  destruct (display_menu_ok sys Hok) as (Hok1 & Hlen1 & Hex1).
  destruct (Sh.display_menu sys) as [[[]|e1] sys1]; simpl in *;
    [|split_and!; [done|intros e [= <-]; by apply Hex1|done]].
  destruct sys1 as [sh1 w1 inp1 out1]. unfold Sh.input at 1 2 3 4. simpl.
  destruct inp1 as [|choice rest]; simpl.
  { split_and!; [by eapply sys_ok_same|intros e [= <-]; by left|done]. }
  set (sys2 := Sh.mkSys sh1 w1 rest _).
  assert (Hok2 : sys_ok sys2) by (by eapply sys_ok_same).
  assert (Hh : handler_ok
                 match Sh.menu_options strftime !! text choice with
                 | Some action => action
                 | None => Sh.print "Invalid choice. Please try again."
                 end).
  { destruct (Sh.menu_options strftime !! text choice) eqn:Hc;
      [by eapply menu_options_ok|apply print_ok]. }
  destruct (Hh sys2 Hok2) as (Hok3 & Hlen3 & Hex3).
  split_and!; [done|done|]. intros _ _. simpl in *. lia.
Qed.

Lemma loop_ends strftime fuel :
  ∀ sys, sys_ok sys → (length (Sh.stdin sys) < fuel)%nat →
         ∃ e sys', Sh.loop strftime fuel sys = Some (e, sys')
                   ∧ ends_run e ∧ sys_ok sys'.
Proof.
  induction fuel as [|fuel IH]; intros sys Hok Hlen; [lia|].
  simpl. destruct (turn_ok strftime sys Hok) as (Hok' & Hex & Hlt).
  destruct (Sh.turn strftime sys) as [[u|e] sys']; simpl in *.
  - apply IH; [done|]. specialize (Hlt u eq_refl). lia.
  - exists e, sys'. split_and!; [done|by apply Hex|done].
Qed.

(** X15. [run] never returns: on any finite input it ends by an exception,
    which is [SystemExit(0)] (choice 7), [EOFError] (no line left) or the
    [ValueError] of [switch_mode] on a negative stateless balance; no other
    exception arises.  Each turn that does not end the run uses at least
    one line, so as many turns as there are lines, and one more, are
    enough. *)
Theorem X15_run_ends (strftime : string → datetime → string) (w : World)
    (lines : list Line) (fuel : nat) :
  (length lines < fuel)%nat →
  ∃ e sys',
    Sh.run strftime fuel (new_shell w lines) = Some (e, sys')
    ∧ ends_run e.
Proof.
  intros Hfuel. unfold Sh.run.
  destruct (loop_ends strftime fuel (Sh.welcome (new_shell w lines)).2)
    as (e & sys' & Hrun & He & _).
  - intros s. by unfold account_state.
  - done.
  - by exists e, sys'.
Qed.

(** ** The theorems on the shell at concrete inputs *)

Lemma X7_switch_to_stateless_witness :
  Sh.switch_mode (shell_100_200 [])
  = (Ok (),
     Sh.mkSys (Sh.mk "stateless" (Some (BankAccount.self account_100_200)) 100 0)
       (BankAccount.world account_100_200) []
       ["Switched to Functional (Stateless) mode." +:+ nl]).
Proof. apply (X7_switch_to_stateless (shell_100_200 [])). reflexivity. Defined.

Lemma X8_switch_to_stateful_witness :
  Sh.switch_mode (stateless_shell (-5) 200 [])
  = (Throw (Exn (ValueError "Initial balance cannot be negative")),
     stateless_shell (-5) 200 [])
  ∧ ∃ a w',
      Sh.switch_mode (stateless_shell 50 (-10) [])
      = (Ok (),
         Sh.mkSys (Sh.mk "stateful" (Some a) 50 (-10)) w' []
           ["Switched to OOP (Stateful) mode." +:+ nl])
      ∧ balance (BankAccount.mkState a w') = 50
      ∧ overdraft_limit (BankAccount.mkState a w') = 0.
Proof.
  split.
  - apply (X8_switch_to_stateful (stateless_shell (-5) 200 [])).
    + unfold in_stateful_mode. simpl. discriminate.
    + simpl. lia.
  - destruct (X8_switch_to_stateful (stateless_shell 50 (-10) [])) as [_ H].
    + unfold in_stateful_mode. simpl. discriminate.
    + destruct H as (a & w' & Hsw & Hb & Hl & _); [simpl; lia|].
      exists a, w'. by split_and!.
Defined.

Lemma X9_switch_there_and_back_witness :
  let sys1 := (Sh.switch_mode (shell_100_200 [])).2 in
  ∃ a' w',
    (Sh.switch_mode sys1).1 = Ok ()
    ∧ account_state (Sh.switch_mode sys1).2 = Some (BankAccount.mkState a' w')
    ∧ balance (BankAccount.mkState a' w') = 100
    ∧ overdraft_limit (BankAccount.mkState a' w') = 0
    ∧ (length (history (BankAccount.mkState a' w')) ≤ 1)%nat.
Proof.
  intros sys1.
  destruct (X9_switch_there_and_back (shell_100_200 [])
              (BankAccount.self account_100_200)) as [H _];
    [reflexivity|reflexivity|].
  destruct H as (a' & w' & Hr & _ & Hs & Hb & Hl & Hlen & _); [simpl; lia|].
  exists a', w'. by split_and!.
Defined.

Lemma X10_amount_handlers_outcome_witness :
  (Sh.make_deposit (shell_100_200 [not_a_number "ten"])).1 = Ok ()
  ∧ (Sh.make_withdrawal (shell_100_200 [])).1 = Throw EOFError
  ∧ Sh.make_deposit (Sh.mkSys Sh.__init__ empty_world [number 5] [])
    = (Ok (), Sh.mkSys Sh.__init__ empty_world [number 5]
                ["Please create an account first (Option 1)." +:+ nl]).
Proof.
  split_and!.
  - destruct (X10_amount_handlers_outcome (shell_100_200 [not_a_number "ten"]))
      as ([H|[_ H]] & _); [exact H|discriminate H].
  - destruct (X10_amount_handlers_outcome (shell_100_200 []))
      as (_ & [H|[H _]] & _); [|exact H].
    vm_compute in H. discriminate H.
  - destruct (X10_amount_handlers_outcome (Sh.mkSys Sh.__init__ empty_world [number 5] []))
      as (_ & _ & H).
    apply H; reflexivity.
Defined.

Lemma X11_rejected_amount_changes_nothing_witness :
  (∃ limit_text,
     Sh.make_withdrawal (stateless_shell 150 0 [number 300])
     = (Ok (),
        Sh.mkSys (Sh.mk "stateless" None 150 0) empty_world []
          (["Enter withdrawal amount: $"]
             ++ [("Error: " +:+ "Withdrawal would exceed overdraft limit of "
                  +:+ limit_text) +:+ nl])))
  ∧ Sh.make_deposit (shell_100_200 [number (-50)])
    = (Ok (),
       Sh.mkSys (Sh.self (shell_100_200 [])) (Sh.world (shell_100_200 [])) []
         ["Enter deposit amount: $"; "Error: Deposit amount must be positive" +:+ nl]).
Proof.
  split.
  - destruct (X11_rejected_amount_changes_nothing (Sh.mk "stateless" None 150 0)
                empty_world (number 300) [] []) as (_ & _ & H).
    + discriminate.
    + apply (H 300); [reflexivity|lia|vm_compute; reflexivity].
  - destruct (X11_rejected_amount_changes_nothing (Sh.self (shell_100_200 []))
                (Sh.world (shell_100_200 [])) (number (-50)) [] []) as (_ & H & _).
    + intros _. by eexists.
    + apply (H (-50)); [reflexivity|lia].
Defined.

Lemma X12_accepted_amount_witness :
  (Sh.make_withdrawal (shell_100_200 [number 300])).1 = Ok ()
  ∧ current_balance (Sh.self (Sh.make_withdrawal (shell_100_200 [number 300])).2)
    = -200
  ∧ Sh.stdout (Sh.make_withdrawal (shell_100_200 [number 300])).2
    = ["Enter withdrawal amount: $";
       "Withdrawal successful. New balance: $-200.00" +:+ nl].
Proof.
  destruct (X12_accepted_amount (Sh.self (shell_100_200 []))
              (Sh.world (shell_100_200 [])) (number 300) [] [] 300) as [_ H].
  - intros _. by eexists.
  - reflexivity.
  - lia.
  - destruct H as (Hr & _ & Hout & Hb & _); [vm_compute; discriminate|].
    split_and!; [exact Hr|exact Hb|exact Hout].
Defined.

Lemma X13_create_account_witness :
  Sh.create_account (stateless_shell 0 0 [number (-5); number (-10)])
  = (Ok (),
     Sh.mkSys (Sh.mk "stateless" None (-5) (-10)) empty_world []
       ["Enter initial balance: $"; "Enter overdraft limit (0 for none): $";
        "Account created with balance: $-5.00" +:+ nl])
  ∧ Sh.create_account (shell_100_200 [number (-5); number 10])
    = (Ok (),
       Sh.mkSys (Sh.self (shell_100_200 [])) (Sh.world (shell_100_200 [])) []
         ["Enter initial balance: $"; "Enter overdraft limit (0 for none): $";
          "Error: Initial balance cannot be negative" +:+ nl]).
Proof.
  split.
  - destruct (X13_create_account (Sh.mk "stateless" None 0 0) empty_world
                (number (-5)) (number (-10)) [] []) as [_ H].
    destruct (H (-5) (-10) eq_refl eq_refl) as (H1 & _).
    apply H1. discriminate.
  - destruct (X13_create_account (Sh.self (shell_100_200 []))
                (Sh.world (shell_100_200 [])) (number (-5)) (number 10) [] [])
      as [_ H].
    destruct (H (-5) 10 eq_refl eq_refl) as (_ & H2 & _).
    apply H2; [reflexivity|lia].
Defined.

Lemma X14_view_transaction_history_witness :
  Sh.view_transaction_history (λ _ t, pretty t) (stateless_shell 0 0 [])
  = (Ok (),
     Sh.mkSys (Sh.mk "stateless" None 0 0) empty_world []
       ["Transaction history is only available in stateful (OOP) mode." +:+ nl])
  ∧ ∃ sys' lines,
      Sh.view_transaction_history (λ _ t, pretty t) (shell_100_200 []) = (Ok (), sys')
      ∧ Sh.stdout sys' = lines
      ∧ length lines = 8%nat
      ∧ last lines = Some ("Total transactions: 1" +:+ nl).
Proof.
  split.
  - apply (X14_view_transaction_history (λ _ t, pretty t) (stateless_shell 0 0 [])).
    unfold in_stateful_mode. simpl. discriminate.
  - destruct (X14_view_transaction_history (λ _ t, pretty t) (shell_100_200 []))
      as [_ H].
    destruct (H eq_refl account_100_200 eq_refl)
      as (sys' & s' & lines & Hv & _ & _ & _ & _ & _ & _ & _ & Hout & _ & Hlines).
    + split_and!.
      * exists [2%positive]. split; [reflexivity|].
        apply Forall_singleton. eexists. reflexivity.
      * vm_compute. discriminate.
      * vm_compute. discriminate.
      * apply Forall_singleton. eexists _, _, _, _.
        split; [reflexivity|]. split; [apply list_elem_of_here|lia].
    + exists sys', lines. destruct Hlines as [Hlen Hlast]; [discriminate|].
      split_and!; [exact Hv|exact Hout|exact Hlen|exact Hlast].
Defined.

Lemma X15_run_ends_witness :
  ∃ e sys',
    Sh.run (λ _ t, pretty t) 4
      (new_shell empty_world
         [mkLine "6" (Return 6); mkLine "2" (Return 2); not_a_number "seven"])
    = Some (e, sys')
    ∧ ends_run e.
Proof.
  apply (X15_run_ends (λ _ t, pretty t) empty_world
           [mkLine "6" (Return 6); mkLine "2" (Return 2); not_a_number "seven"] 4).
  simpl. lia.
Defined.

(** ** One turn of the menu *)

Lemma display_menu_eq sys :
  Sh.display_menu sys
  = (Ok (),
     Sh.mkSys (Sh.self sys) (Sh.world sys) (Sh.stdin sys)
       (Sh.stdout sys
        ++ [(nl +:+ "===== Bank Account Simulator =====") +:+ nl;
            ("Current Mode: " +:+
             (if Sh.is_stateful (Sh.self sys) then "OOP (Stateful)"
              else "Functional (Stateless)")) +:+ nl;
            ("Current Balance: $" +:+ format_2f (current_balance (Sh.self sys))) +:+ nl;
            (nl +:+ "Options:") +:+ nl;
            "1. Create new account" +:+ nl;
            "2. Make a deposit" +:+ nl;
            "3. Make a withdrawal" +:+ nl;
            "4. Check balance" +:+ nl;
            "5. View transaction history (Stateful mode only)" +:+ nl;
            "6. Switch mode (Stateful/Functional)" +:+ nl;
            "7. Exit" +:+ nl])).
Proof.
  destruct sys as [[m acct b l] w inp out]. unfold current_balance.
  shell_unfold; simpl.
  destruct (String.eqb m "stateful"); [destruct acct as [a|]; [destruct a|]|];
    simpl; by rewrite <- !app_assoc.
Qed.

(** X16. A turn of the menu shows the mode and the balance in force, then
    reads the choice.  A choice that is not one of "1" to "7" (the lookup
    in [menu_options] finds nothing) prints "Invalid choice. Please try
    again." and changes nothing but the output; the choice "7" prints the
    farewell and raises [SystemExit(0)], whatever input is left. *)
Theorem X16_turn_dispatch (strftime : string → datetime → string) (sys : Sh.Sys)
    (choice : Line) (rest : list Line) :
  Sh.stdin sys = choice :: rest →
  let shown := Sh.stdout (Sh.display_menu sys).2
               ++ [nl +:+ "Enter your choice (1-7): "] in
  (Sh.menu_options strftime !! text choice = None
   ↔ text choice ∉ ["1"; "2"; "3"; "4"; "5"; "6"; "7"])
  ∧ (text choice ∉ ["1"; "2"; "3"; "4"; "5"; "6"; "7"] →
     Sh.turn strftime sys
     = (Ok (),
        Sh.mkSys (Sh.self sys) (Sh.world sys) rest
          (shown ++ ["Invalid choice. Please try again." +:+ nl])))
  ∧ (text choice = "7" →
     Sh.turn strftime sys
     = (Throw (SystemExit 0),
        Sh.mkSys (Sh.self sys) (Sh.world sys) rest
          (shown ++ ["Thank you for using the Bank Account Simulator!" +:+ nl]))).
Proof.
  intros Hin.
  assert (Hnone : Sh.menu_options strftime !! text choice = None
                  ↔ text choice ∉ ["1"; "2"; "3"; "4"; "5"; "6"; "7"]).
  { unfold Sh.menu_options. rewrite !lookup_insert_None, lookup_singleton_None.
    rewrite !not_elem_of_cons. pose proof (not_elem_of_nil (text choice)).
    intuition congruence. }
  split; [exact Hnone|].
  rewrite turn_eq, display_menu_eq. simpl. unfold Sh.input. simpl. rewrite Hin.
  split.
  - intros Hc%Hnone. rewrite Hc. reflexivity.
  - intros ->. reflexivity.
Qed.

Lemma X16_turn_dispatch_witness :
  (Sh.turn (λ _ t, pretty t)
     (stateless_shell 0 0 [mkLine "7" (Return 7); number 1])).1
  = Throw (SystemExit 0)
  ∧ (Sh.turn (λ _ t, pretty t)
       (stateless_shell 0 0 [mkLine "8" (Return 8); number 1])).1
    = Ok ().
Proof.
  split.
  - destruct (X16_turn_dispatch (λ _ t, pretty t)
                (stateless_shell 0 0 [mkLine "7" (Return 7); number 1])
                (mkLine "7" (Return 7)) [number 1] eq_refl) as (_ & _ & H).
    by rewrite H.
  - destruct (X16_turn_dispatch (λ _ t, pretty t)
                (stateless_shell 0 0 [mkLine "8" (Return 8); number 1])
                (mkLine "8" (Return 8)) [number 1] eq_refl) as (_ & H & _).
    rewrite H; [done|]. simpl. rewrite !not_elem_of_cons.
    split_and!; try discriminate. apply not_elem_of_nil.
Defined.

(** ** Failed calls leave no trace *)

Lemma call_failed_unchanged c s : succeeded (call c s).1 = false → (call c s).2 = s.
Proof.
  destruct c as [amount|amount]; simpl.
  - destruct (BankAccount.deposit amount s) as [[b|e] s'] eqn:Hc; [done|].
    intros _. by apply deposit_raise_inv in Hc as [-> _].
  - destruct (BankAccount.withdraw amount s) as [[b|e] s'] eqn:Hc; [done|].
    intros _. by apply withdraw_raise_inv in Hc as [-> _].
Qed.

(** X17. A failed [deposit] or [withdraw] leaves no trace at all: balance,
    history, heap and clock are exactly as if the call had not been made.
    So a run ends in the very state its successful calls alone lead to, and
    these succeed again, with the same results, when made alone. *)
Theorem X17_failed_calls_leave_no_trace (cs : list Call) (s : State) :
  (run (successful_calls cs s) s).2 = (run cs s).2
  ∧ (run (successful_calls cs s) s).1 = List.filter succeeded (run cs s).1
  ∧ length (successful_calls cs s) = successes (run cs s).1.
Proof.
  revert s. induction cs as [|c cs IH]; intros s; [done|].
  rewrite run_cons. unfold successes. simpl.
  pose proof (call_failed_unchanged c s) as Hfail.
  destruct (call c s) as [r s'] eqn:Hc. simpl in *.
  destruct (IH s') as (IH1 & IH2 & IH3). unfold successes in IH3.
  destruct (succeeded r) eqn:Hr.
  - rewrite run_cons, Hc. simpl. by rewrite IH1, IH2, IH3.
  - rewrite Hfail in * by done. done.
Qed.
